(** * fence: token validation, RAS visa synchronisation and access mapping

    A shallow embedding of
      - [fence/jwt/validator.py]            (JWTValidator),
      - [fence/resources/openid/ras_oauth2.py] (RASOauth2Client),
      - [fence/sync/passport_sync/ras_sync.py] (RASVisa),
    with the properties their specification states.

    Decoded JSON documents are a small value type, the dictionaries the
    code builds are finite maps ([gmap]) and its sets finite sets ([gset]);
    exceptions are an explicit result type, and the objects the code
    mutates (the user, the database session, the request, the public-key
    cache) are threaded as explicit state. *)

From Stdlib Require Import QArith.
From stdpp Require Import gmap strings list.

Local Open Scope string_scope.
Local Open Scope list_scope.

(** ** Python values shared by the three files *)

(** Truthiness of a Python [str]: only the empty string is falsy. *)
Definition truthy (s : string) : bool :=
  match s with
  | EmptyString => false
  | String _ _ => true
  end.

(** [x or ""] for an [x] that is a string or [None]. *)
Definition or_empty (o : option string) : string :=
  match o with
  | Some s => if truthy s then s else ""
  | None => ""
  end.

(** A decoded JSON document: the claims of a JWT, a user-info response, a
    token response, a public key. Numbers are integers, as the NumericDate
    claims ([exp], [iat], [asserted]) are. A JSON object is the list of its
    members; [dict_get] reads the first member of a name. *)
#[local] Unset Elimination Schemes.
Inductive json :=
  | JNull
  | JBool (b : bool)
  | JNum (n : Z)
  | JStr (s : string)
  | JArr (items : list json)
  | JObj (members : list (string * json)).
#[local] Set Elimination Schemes.

Abbreviation jdict := (list (string * json)).

(** Python truthiness of a decoded JSON value. *)
Definition json_truthy (v : json) : bool :=
  match v with
  | JNull => false
  | JBool b => b
  | JNum n => negb (n =? 0)%Z
  | JStr s => truthy s
  | JArr items => match items with [] => false | _ => true end
  | JObj members => match members with [] => false | _ => true end
  end.

(** Truthiness of what [d.get(key)] returns: [None] when the key is absent. *)
Definition get_truthy (o : option json) : bool :=
  match o with
  | Some v => json_truthy v
  | None => false
  end.

(** [d.get(key)] on a dictionary. *)
Definition dict_get (d : jdict) (key : string) : option json :=
  snd <$> find (λ kv, String.eqb kv.1 key) d.

(** [key in d] *)
Definition dict_has (d : jdict) (key : string) : bool :=
  match dict_get d key with Some _ => true | None => false end.

(** Exceptions: the class that matters to an [except] clause, and the
    message [str(e)] gives. [JWTValidationError] stands for cdispyutils'
    class and its subclasses, [JWTError] for authutils'. *)
Inductive exn_class :=
  | JWTValidationError
  | JWTError
  | KeyError
  | TypeError
  | ValueError
  | AttributeError
  | OtherException (name : string).

Record exn := mkExn {
  exn_cls : exn_class;
  exn_msg : string
}.

(** The outcome of a call that may raise. *)
Inductive result (A : Type) :=
  | Ok (a : A)
  | Raise (e : exn).
Arguments Ok {A} a.
Arguments Raise {A} e.

(** [v.get(key)]: only a dictionary has the method. *)
Definition py_get (v : json) (key : string) : result (option json) :=
  match v with
  | JObj d => Ok (dict_get d key)
  | _ => Raise (mkExn AttributeError "object has no attribute 'get'")
  end.

(** [d[key]] on a dictionary. *)
Definition dict_item (d : jdict) (key : string) : result json :=
  match dict_get d key with
  | Some v => Ok v
  | None => Raise (mkExn KeyError key)
  end.

(** [v[key]] with a string key: a dictionary looks the key up, every other
    decoded JSON value refuses the subscript. *)
Definition py_item (v : json) (key : string) : result json :=
  match v with
  | JObj d => dict_item d key
  | _ => Raise (mkExn TypeError "object is not subscriptable by a string")
  end.

(** ** The persistence model ([fence.models])

    Only the attributes the three files read or write are kept. *)

(** A row of [GA4GHVisaV1], with the columns given to its constructor in
    [update_user_visas]. *)
Record GA4GHVisaV1 := mkVisa {
  source : json;
  type : json;
  asserted : Z;
  expires : Z;
  ga4gh_visa : string
}.

(** The [User] object as the session holds it. *)
Record User := mkUser {
  email : option string;
  display_name : option string;
  phone_number : option string;
  ga4gh_visas_v1 : list GA4GHVisaV1
}.

Definition set_visas (u : User) (vs : list GA4GHVisaV1) : User :=
  {| email := email u; display_name := display_name u;
     phone_number := phone_number u; ga4gh_visas_v1 := vs |}.

(** The user object of the open session together with what the database
    holds for that user since the last [commit()]. *)
Record Session := mkSession {
  user : User;
  committed_visas : list GA4GHVisaV1
}.

(** [user.ga4gh_visas_v1 = []] *)
Definition clear_visas (s : Session) : Session :=
  {| user := set_visas (user s) []; committed_visas := committed_visas s |}.

(** [db_session.commit()] *)
Definition commit (s : Session) : Session :=
  {| user := user s; committed_visas := ga4gh_visas_v1 (user s) |}.

(** ** [fence/sync/passport_sync/ras_sync.py] *)

(** One entry of the [ras_dbgap_permissions] claim: a JSON object whose
    fields ([phs_id], [version], [participant_set], [consent_group],
    [role]) are strings. *)
Abbreviation permission := (gmap string string).

(** The payload [jwt.decode(encoded_visa, verify=False)] returns, reduced to
    the one claim [_parse_single_visa] reads; [None] is an absent key. *)
Record decoded_visa := mkDecoded {
  ras_dbgap_permissions : option (list permission)
}.

(** The [info] dictionary returned next to the project map. *)
Record Info := mkInfo {
  tags : gmap string string;
  info_email : string;
  info_display_name : string;
  info_phone_number : string
}.

(** [privileges = {"read-storage", "read"}] *)
Definition privileges : gset string := {[ "read-storage"; "read" ]}.

(** The access key of one permission: [phs_id], followed by ["."] and the
    consent group when consent codes are parsed and the group is
    non-empty. *)
Definition full_phsid (parse_consent_code : bool) (p : permission) : string :=
  let phsid := default "" (p !! "phs_id") in
  let consent_group := default "" (p !! "consent_group") in
  if parse_consent_code && truthy consent_group
  then phsid +:+ "." +:+ consent_group
  else phsid.

(** The body of [for permission in ras_dbgap_permissions], on the pair
    ([project], [info["tags"]]). *)
Definition permission_step (parse_consent_code : bool)
    (acc : gmap string (gset string) * gmap string string)
    (p : permission) : gmap string (gset string) * gmap string string :=
  (<[ full_phsid parse_consent_code p := privileges ]> acc.1,
   {[ "dbgap_role" := default "" (p !! "role") ]}).

Definition permission_loop (parse_consent_code : bool)
    (perms : list permission)
    (acc : gmap string (gset string) * gmap string string) :=
  fold_left (permission_step parse_consent_code) perms acc.

(** What [_parse_single_visa] takes from outside the repository: PyJWT's
    [jwt.decode(_, verify=False)] ([None] when it raises) and the value of
    [time.time()] at the call, a float and so a rational. *)
Class RasSyncEnv := {
  jwt_decode : string → option decoded_visa;
  now : Q
}.

Definition _parse_single_visa `{RasSyncEnv} (s : Session)
    (encoded_visa : string) (expires_at : Z) (parse_consent_code : bool)
    : gmap string (gset string) * Info * Session :=
  (* try / except / finally *)
  let '(perms, s1) :=
    match jwt_decode encoded_visa with
    | Some d => (default [] (ras_dbgap_permissions d), s)
    | None => ([], commit (clear_visas s))
    end in
  let '(project, tgs, s2) :=
    if Qlt_le_dec now (inject_Z expires_at)
    then (permission_loop parse_consent_code perms (∅, ∅), s1)
    else (∅, ∅, commit (clear_visas s1)) in
  (project,
   {| tags := tgs;
      info_email := or_empty (email (user s2));
      info_display_name := or_empty (display_name (user s2));
      info_phone_number := or_empty (phone_number (user s2)) |},
   s2).

(** ** [fence/jwt/validator.py] *)

(** A row of [BlacklistedToken]. *)
Record BlacklistedToken := mkBlacklisted {
  jti : string
}.

(** What the application logger received. *)
Inductive log_record :=
  | LogException (msg : string)
  | LogError (msg : string)
  | LogInfo (msg : string)
  | LogInfoClaims (prefix : string) (claims : jdict).

(** The objects [JWTValidator] writes to: [request.error_message] and the
    application log. *)
Record ValidatorState := mkVState {
  error_message : option string;
  app_log : list log_record
}.

(** What the validator takes from outside: cdispyutils'
    [auth.validate_request_jwt(aud)], which reads the token off the current
    request, and [auth.validate_jwt(encoded_token, public_key, aud, iss)];
    the signing key [keys.default_public_key()] and the configured
    [HOST_NAME]. *)
Class ValidatorEnv := {
  validate_request_jwt : gset string → result jdict;
  auth_validate_jwt : string → string → gset string → string → result jdict;
  default_public_key : string;
  HOST_NAME : string
}.

(** [s.update(it)] for a set [s] and a [str] [it]: [update] iterates over its
    argument, and iterating over a string yields its characters, each a
    string of length one. *)
Definition set_update_str (s : gset string) (it : string) : gset string :=
  s ∪ list_to_set ((λ c, String c "") <$> String.list_ascii_of_string it).

(** The local [fail_with(msg)] of both methods. *)
Definition fail_with (msg : string) (st : ValidatorState)
    : result bool * ValidatorState :=
  (Ok false,
   {| error_message := Some msg;
      app_log := app_log st ++ [LogException msg] |}).

Definition log_claims (prefix : string) (claims : jdict)
    (st : ValidatorState) : ValidatorState :=
  {| error_message := error_message st;
     app_log := app_log st ++ [LogInfoClaims prefix claims] |}.

(** The audience set [validate_bearer_token] builds and hands to
    [auth.validate_request_jwt]: [aud = set(scopes)], then
    [aud.update('access')]. *)
Definition bearer_audience (scopes : list string) : gset string :=
  set_update_str (list_to_set scopes) "access".

Definition validate_bearer_token `{ValidatorEnv} (token : string)
    (scopes : list string) (st : ValidatorState)
    : result bool * ValidatorState :=
  if negb (truthy token) then fail_with "No token provided." st
  else
    let aud := bearer_audience scopes in
    match validate_request_jwt aud with
    | Raise e =>
        match exn_cls e with
        | JWTValidationError => fail_with (exn_msg e) st
        | _ => (Raise e, st)
        end
    | Ok decoded_jwt =>
        (Ok true, log_claims "validated access token: " decoded_jwt st)
    end.

(** [session.query(BlacklistedToken).filter_by(jti=jti).first()]: the [jti]
    column is text, so only a string claim can equal it. *)
Definition blacklisted_first (blacklist : list BlacklistedToken)
    (jti_claim : option json) : option BlacklistedToken :=
  match jti_claim with
  | Some (JStr s) => find (λ row, String.eqb (jti row) s) blacklist
  | _ => None
  end.

Definition validate_refresh_token `{ValidatorEnv}
    (blacklist : list BlacklistedToken) (refresh_token : string)
    (st : ValidatorState) : result bool * ValidatorState :=
  if negb (truthy refresh_token) then fail_with "No token provided." st
  else
    match auth_validate_jwt refresh_token default_public_key
            {[ "refresh" ]} HOST_NAME with
    | Raise e => (Raise e, st)
    | Ok decoded_jwt =>
        let jti_claim := dict_get decoded_jwt "jti" in
        if negb (get_truthy jti_claim)
        then fail_with "Token missing jti claim." st
        else
          match blacklisted_first blacklist jti_claim with
          | Some _ => fail_with "Token is blacklisted." st
          | None =>
              (Ok true,
               log_claims "validated refresh token: " decoded_jwt st)
          end
    end.

(** ** [fence/resources/openid/ras_oauth2.py] *)

(** The public-key cache: issuer, then key id, then the key (a PEM text or
    a JWK object). A Python dictionary that [update_user_visas] shares with
    its callers and with [refresh_cronjob_pkey_cache]. *)
Abbreviation pkey_cache_t := (gmap string (gmap string json)).

(** What [requests.get] returns, as far as [get_userinfo] reads it. *)
Record Response := mkResponse {
  status_code : Z;
  text : string;
  json_body : result json
}.

(** The calls that leave the process. *)
Inductive provider_call :=
  | DiscoveryDoc (key : string)
  | TokenEndpoint
  | JwksEndpoint
  | UserInfoEndpoint (url : string)
  | PassportUnpack
  | KeySetFetch (issuer kid : string).

(** What an observer of one run sees, in order. *)
Inductive event :=
  | EvSetVisas (vs : list GA4GHVisaV1)
  | EvAddVisa (v : GA4GHVisaV1)
  | EvCommit
  | EvCall (c : provider_call)
  | EvLog (r : log_record)
  | EvBackoff.

(** What [RASOauth2Client] takes from outside this file. [World] is the
    state of everything outside the process (the provider, the issuers'
    key-set endpoints, the stored refresh tokens); a call reads and changes
    it and may raise.
    - [get_value_from_discovery_doc], [get_token], [get_jwt_keys] and
      [get_access_token] are methods of the base class [Oauth2ClientBase];
    - [requests_get] is [requests.get(url, headers=...)];
    - [jose_jwt_decode] is [jose.jwt.decode(token, keys, options=...)];
    - [get_unvalidated_visas_from_valid_passport] and
      [refresh_cronjob_pkey_cache] are functions of
      [fence.resources.ga4gh.passports]; both may write to the key cache;
    - [get_iss], [get_kid] and [validate_jwt] are authutils'; [validate_jwt]
      is taken with the fixed arguments of its one call ([aud=None],
      [scope={"openid"}], [require_iat], [require_exp]) and the issuer
      allowlist;
    - [RAS_USERINFO_ENDPOINT] and [GA4GH_VISA_ISSUER_ALLOWLIST] are
      configuration values;
    - [max_tries] and [giveup] are what [DEFAULT_BACKOFF_SETTINGS] (of
      [fence.utils]) gives the backoff decorator: the number of attempts,
      at least one, and the exceptions it is told not to retry (none when
      the settings name no such predicate);
    - [int_of_str] is Python's [int] on a [str], [None] when it raises. *)
Class RasEnv := {
  World : Type;
  get_value_from_discovery_doc :
    string → string → World → result string * World;
  get_token : string → string → World → result jdict * World;
  get_jwt_keys : string → World → result json * World;
  get_access_token : User → string → World → result jdict * World;
  requests_get : string → jdict → World → result Response * World;
  jose_jwt_decode : json → json → result jdict;
  get_unvalidated_visas_from_valid_passport :
    option json → pkey_cache_t → World
    → result (list string) * pkey_cache_t * World;
  get_iss : string → result string;
  get_kid : string → result string;
  refresh_cronjob_pkey_cache :
    string → string → pkey_cache_t → World
    → result (option json) * pkey_cache_t * World;
  validate_jwt : string → json → list string → result jdict;
  RAS_USERINFO_ENDPOINT : string;
  GA4GH_VISA_ISSUER_ALLOWLIST : list string;
  max_tries : nat;
  giveup : exn → bool;
  int_of_str : string → option Z
}.

(** What [get_user_id] leaves in [flask.g]. *)
Record FlaskG := mkFlaskG {
  g_userinfo : json;
  g_tokens : jdict;
  g_keys : json
}.

(** Everything a method of the client reads or writes. *)
Record State `{RasEnv} := mkState {
  session : Session;
  pkey_cache : pkey_cache_t;
  world : World;
  flask_g : option FlaskG;
  trace : list event
}.
Arguments mkState {_} _ _ _ _ _.

(** Computations over [State] that may raise; a raise keeps the state
    reached so far. *)
Definition M `{RasEnv} (A : Type) : Type := State → result A * State.

Definition ret `{RasEnv} {A} (a : A) : M A := λ st, (Ok a, st).

Definition raise `{RasEnv} {A} (e : exn) : M A := λ st, (Raise e, st).

Definition bind `{RasEnv} {A B} (m : M A) (k : A → M B) : M B :=
  λ st, match m st with
        | (Ok a, st') => k a st'
        | (Raise e, st') => (Raise e, st')
        end.

#[global] Instance M_ret `{RasEnv} : MRet M := @ret _.
#[global] Instance M_bind `{RasEnv} : MBind M := λ A B k m, bind m k.

(** [try: m except Exception as e: h e] *)
Definition try_except `{RasEnv} {A} (m : M A) (h : exn → M A) : M A :=
  λ st, match m st with
        | (Ok a, st') => (Ok a, st')
        | (Raise e, st') => h e st'
        end.

(** Reading the objects in scope. *)
Definition get_state `{RasEnv} : M State := λ st, (Ok st, st).

(** A pure step that may raise. *)
Definition lift `{RasEnv} {A} (r : result A) : M A := λ st, (r, st).

Definition with_trace `{RasEnv} (st : State) (evs : list event) : State :=
  {| session := session st; pkey_cache := pkey_cache st;
     world := world st; flask_g := flask_g st;
     trace := trace st ++ evs |}.

Definition emit `{RasEnv} (ev : event) : M unit :=
  λ st, (Ok tt, with_trace st [ev]).

Definition log `{RasEnv} (r : log_record) : M unit := emit (EvLog r).

(** A call that leaves the process: recorded, then run on the world. *)
Definition call `{RasEnv} {A} (c : provider_call)
    (f : World → result A * World) : M A :=
  λ st, let '(r, w) := f (world st) in
        (r, {| session := session st; pkey_cache := pkey_cache st;
               world := w; flask_g := flask_g st;
               trace := trace st ++ [EvCall c] |}).

(** The same for a call that is also handed the key cache. *)
Definition call_cached `{RasEnv} {A} (c : provider_call)
    (f : pkey_cache_t → World → result A * pkey_cache_t * World) : M A :=
  λ st, let '(r, cache, w) := f (pkey_cache st) (world st) in
        (r, {| session := session st; pkey_cache := cache;
               world := w; flask_g := flask_g st;
               trace := trace st ++ [EvCall c] |}).

Definition on_session `{RasEnv} (f : Session → Session) (ev : event)
    : M unit :=
  λ st, (Ok tt, {| session := f (session st); pkey_cache := pkey_cache st;
                   world := world st; flask_g := flask_g st;
                   trace := trace st ++ [ev] |}).

(** [user.ga4gh_visas_v1 = []] *)
Definition set_visas_empty `{RasEnv} : M unit :=
  on_session clear_visas (EvSetVisas []).

(** [db_session.commit()] *)
Definition db_commit `{RasEnv} : M unit := on_session commit EvCommit.

(** [GA4GHVisaV1(user=user, ...)] followed by [current_db_session.add(visa)]:
    the new row joins the user's collection. *)
Definition add_visa `{RasEnv} (v : GA4GHVisaV1) : M unit :=
  on_session
    (λ s, {| user := set_visas (user s) (ga4gh_visas_v1 (user s) ++ [v]);
             committed_visas := committed_visas s |})
    (EvAddVisa v).

Definition set_flask_g `{RasEnv} (g : FlaskG) : M unit :=
  λ st, (Ok tt, {| session := session st; pkey_cache := pkey_cache st;
                   world := world st; flask_g := Some g;
                   trace := trace st |}).

(** [get_userinfo(token)]. A response other than 200 is logged and gives
    the empty dictionary; the log keeps the message without its formatted
    arguments. *)
Definition get_userinfo `{RasEnv} (token : jdict) : M json :=
  issuer ← call (DiscoveryDoc "issuer")
             (get_value_from_discovery_doc "issuer" "");
  let userinfo_endpoint := issuer +:+ RAS_USERINFO_ENDPOINT in
  access_token ← lift (dict_item token "access_token");
  bearer ← lift (match access_token with
                 | JStr s => Ok ("Bearer " +:+ s)
                 | _ => Raise (mkExn TypeError "can only concatenate str")
                 end);
  res ← call (UserInfoEndpoint userinfo_endpoint)
          (requests_get userinfo_endpoint [("Authorization", JStr bearer)]);
  if negb (status_code res =? 200)%Z
  then log (LogError "Unable to get visa") ;; mret (JObj [])
  else lift (json_body res).

(** [get_encoded_visas_v11_userinfo(userinfo, pkey_cache)] *)
Definition get_encoded_visas_v11_userinfo `{RasEnv} (userinfo : json)
    : M (list string) :=
  encoded_passport ← lift (py_get userinfo "passport_jwt_v11");
  call_cached PassportUnpack
    (get_unvalidated_visas_from_valid_passport encoded_passport).

(** [err_msg] of [get_user_id] *)
Definition err_msg : string := "Can't get user's info".

(** The [if / elif] chain of [get_user_id]: the field used and its value,
    [None] when [username] stays [None]. *)
Definition choose_username (userinfo claims : jdict)
    : option (string * json) :=
  if get_truthy (dict_get userinfo "UserID")
  then pair "UserID" <$> dict_get userinfo "UserID"
  else if get_truthy (dict_get userinfo "userid")
  then pair "userid" <$> dict_get userinfo "userid"
  else if get_truthy (dict_get userinfo "preferred_username")
  then pair "preferred_username" <$> dict_get userinfo "preferred_username"
  else if get_truthy (dict_get claims "sub")
  then pair "sub" <$> dict_get claims "sub"
  else None.

(** The username as the specification words it: the first candidate, in
    the order given, that is present with a non-empty value. *)
Fixpoint first_present (candidates : list (option json)) : option json :=
  match candidates with
  | [] => None
  | candidate :: rest =>
      if get_truthy candidate then candidate else first_present rest
  end.

(** The retrievals at the head of [get_user_id]'s [try] block: the token
    response, the provider's keys, the user-info document and the claims
    of the ID token. *)
Definition fetch_identity `{RasEnv} (code : string)
    : M (jdict * json * json * jdict) :=
  token_endpoint ← call (DiscoveryDoc "token_endpoint")
                      (get_value_from_discovery_doc "token_endpoint" "");
  jwks_endpoint ← call (DiscoveryDoc "jwks_uri")
                     (get_value_from_discovery_doc "jwks_uri" "");
  token ← call TokenEndpoint (get_token token_endpoint code);
  keys ← call JwksEndpoint (get_jwt_keys jwks_endpoint);
  userinfo ← get_userinfo token;
  id_token ← lift (dict_item token "id_token");
  claims ← lift (jose_jwt_decode id_token keys);
  access_token ← lift (dict_item token "access_token");
  at_claims ← lift (jose_jwt_decode access_token keys);
  log (LogInfo "Received RAS access token with txn") ;;
  mret (token, keys, userinfo, claims).

(** The rest of the [try] block: choose the username, or return the error
    dictionary. *)
Definition name_user `{RasEnv} (token : jdict) (keys userinfo : json)
    (claims : jdict) : M jdict :=
  match userinfo with
  | JObj userinfo_d =>
      match choose_username userinfo_d claims with
      | Some (field_name, username) =>
          if negb (json_truthy username)
          then log (LogError err_msg) ;; mret [("error", JStr err_msg)]
          else
            log (LogInfo ("Using " +:+ field_name +:+
                          " field as username.")) ;;
            set_flask_g {| g_userinfo := userinfo; g_tokens := token;
                           g_keys := keys |} ;;
            mret [("username", username);
                  ("email", default JNull (dict_get userinfo_d "email"))]
      | None =>
          log (LogError err_msg) ;; mret [("error", JStr err_msg)]
      end
  | _ => raise (mkExn AttributeError "object has no attribute 'get'")
  end.

(** [get_user_id(code)]: the dictionary it returns, with [email] being
    [JNull] for Python's [None]. *)
Definition get_user_id `{RasEnv} (code : string) : M jdict :=
  try_except
    ('(token, keys, userinfo, claims) ← fetch_identity code;
     name_user token keys userinfo claims)
    (λ e, log (LogException (err_msg +:+ ": " +:+ exn_msg e)) ;;
          mret [("error", JStr err_msg)]).

(** [int(v)] on a decoded JSON value. *)
Definition py_int `{RasEnv} (v : json) : result Z :=
  match v with
  | JNum n => Ok n
  | JBool b => Ok (if b then 1 else 0)%Z
  | JStr s =>
      match int_of_str s with
      | Some n => Ok n
      | None => Raise (mkExn ValueError "invalid literal for int()")
      end
  | _ => Raise (mkExn TypeError "int() argument must be a string or a number")
  end.

Definition result_bind {A B} (r : result A) (k : A → result B) : result B :=
  match r with
  | Ok a => k a
  | Raise e => Raise e
  end.

(** The arguments of the [GA4GHVisaV1(...)] call, evaluated in order. *)
Definition visa_of_claims `{RasEnv} (decoded_visa : jdict)
    (encoded_visa : string) : result GA4GHVisaV1 :=
  result_bind (dict_item decoded_visa "ga4gh_visa_v1") (λ v1,
  result_bind (py_item v1 "source") (λ src,
  result_bind (dict_item decoded_visa "ga4gh_visa_v1") (λ v2,
  result_bind (py_item v2 "type") (λ typ,
  result_bind (dict_item decoded_visa "ga4gh_visa_v1") (λ v3,
  result_bind (py_item v3 "asserted") (λ asserted_claim,
  result_bind (py_int asserted_claim) (λ asserted_at,
  result_bind (dict_item decoded_visa "exp") (λ exp_claim,
  result_bind (py_int exp_claim) (λ exp_at,
  Ok {| source := src; type := typ; asserted := asserted_at;
        expires := exp_at; ga4gh_visa := encoded_visa |}))))))))).

(** The [try] block around [validate_jwt]: the decoded claims, or the
    exception the [except] clause receives. *)
Definition validate_visa `{RasEnv} (encoded_visa : string)
    (public_key : json) : result jdict :=
  result_bind
    (validate_jwt encoded_visa public_key GA4GH_VISA_ISSUER_ALLOWLIST)
    (λ decoded_visa,
       if negb (dict_has decoded_visa "sub")
       then Raise (mkExn JWTError "Visa is missing the 'sub' claim.")
       else Ok decoded_visa).

(** [pkey_cache.get(visa_issuer, {}).get(visa_kid)] *)
Definition cache_lookup (cache : pkey_cache_t) (visa_issuer visa_kid : string)
    : option json :=
  default ∅ (cache !! visa_issuer) !! visa_kid.

(** The part of the loop body that follows key resolution: validate,
    build the row, add it and commit. *)
Definition validate_and_persist `{RasEnv} (encoded_visa : string)
    (public_key : json) : M unit :=
  match validate_visa encoded_visa public_key with
  | Raise e =>
      log (LogError ("Visa failed validation: " +:+ exn_msg e +:+
                     ". Discarding visa."))
  | Ok decoded_visa =>
      visa ← lift (visa_of_claims decoded_visa encoded_visa);
      add_visa visa ;;
      db_commit
  end.

(** Lines 189-200 of the loop body: the key the cache holds, or on a miss
    the key [refresh_cronjob_pkey_cache] returns. The outer [None] is the
    [continue] of the [except] clause. *)
Definition resolve_public_key `{RasEnv} (visa_issuer visa_kid : string)
    : M (option (option json)) :=
  λ st,
    let public_key := cache_lookup (pkey_cache st) visa_issuer visa_kid in
    if negb (get_truthy public_key)
    then
      try_except
        (public_key ← call_cached (KeySetFetch visa_issuer visa_kid)
                        (refresh_cronjob_pkey_cache visa_issuer visa_kid);
         mret (Some public_key))
        (λ e, log (LogError ("Could not refresh public key cache: "
                             +:+ exn_msg e)) ;;
              mret None)
        st
    else (Ok (Some public_key), st).

(** [get_iss] then [get_kid], inside one [try]. *)
Definition issuer_and_kid `{RasEnv} (encoded_visa : string)
    : result (string * string) :=
  result_bind (get_iss encoded_visa) (λ visa_issuer,
  result_bind (get_kid encoded_visa) (λ visa_kid,
  Ok (visa_issuer, visa_kid))).

(** The body of [for encoded_visa in encoded_visas]; every [continue] ends
    the body with [tt]. *)
Definition process_visa `{RasEnv} (encoded_visa : string) : M unit :=
  match issuer_and_kid encoded_visa with
  | Raise e =>
      log (LogError ("Could not get issuer or kid from visa: " +:+
                     exn_msg e +:+ ". Discarding visa."))
  | Ok (visa_issuer, visa_kid) =>
      resolved ← resolve_public_key visa_issuer visa_kid;
      match resolved with
      | None => mret tt
      | Some public_key =>
          match public_key with
          | Some key =>
              if negb (json_truthy key)
              then log (LogError "Could not get public key to validate visa")
              else validate_and_persist encoded_visa key
          | None => log (LogError "Could not get public key to validate visa")
          end
      end
  end.

(** [for encoded_visa in encoded_visas: ...]; an exception leaves the
    loop. *)
Fixpoint visa_loop `{RasEnv} (encoded_visas : list string) : M unit :=
  match encoded_visas with
  | [] => mret tt
  | encoded_visa :: rest => process_visa encoded_visa ;; visa_loop rest
  end.

(** The first [try] block of [update_user_visas]: the three retrievals. *)
Definition retrieve_visas `{RasEnv} : M (list string) :=
  token_endpoint ← call (DiscoveryDoc "token_endpoint")
                      (get_value_from_discovery_doc "token_endpoint" "");
  st ← get_state;
  token ← call TokenEndpoint
            (get_access_token (user (session st)) token_endpoint);
  userinfo ← get_userinfo token;
  get_encoded_visas_v11_userinfo userinfo.

(** The body of [update_user_visas] from its first [try] on: retrieve the
    visas, logging and re-raising what the retrieval raises, then loop. *)
Definition retrieve_and_store `{RasEnv} : M unit :=
  encoded_visas ←
    try_except retrieve_visas
      (λ e, log (LogException ("Could not retrieve visas: " +:+ exn_msg e)) ;;
            raise e);
  visa_loop encoded_visas.

(** One call of the undecorated [update_user_visas]. *)
Definition update_user_visas_once `{RasEnv} : M unit :=
  set_visas_empty ;;
  db_commit ;;
  retrieve_and_store.

(** [backoff.on_exception(backoff.expo, Exception, **settings)]: after an
    exception, call again unless [giveup] refuses the exception or no try
    is left; then the exception goes through. The waiting time between
    tries is not modelled. *)
Fixpoint backoff_on_exception `{RasEnv} {A} (tries_left : nat) (m : M A)
    : M A :=
  λ st,
    match m st with
    | (Ok a, st') => (Ok a, st')
    | (Raise e, st') =>
        if giveup e then (Raise e, st')
        else
          match tries_left with
          | O => (Raise e, st')
          | S n => backoff_on_exception n m (with_trace st' [EvBackoff])
          end
    end.

(** [update_user_visas(user, pkey_cache, db_session)] as decorated: at most
    [max_tries] calls of the body. *)
Definition update_user_visas `{RasEnv} : M unit :=
  backoff_on_exception (max_tries - 1) update_user_visas_once.

(** * Vocabulary of the statements *)

(** [st'] is [st] after steps that append to the trace and do not touch
    the session: calls to the outside, logging, writes to [flask.g]. *)
Definition outside_only `{RasEnv} (st st' : State) : Prop :=
  session st' = session st ∧ ∃ evs, trace st' = trace st ++ evs.

(** [st'] is [st] after steps that append to the trace. *)
Definition trace_grows `{RasEnv} (st st' : State) : Prop :=
  ∃ evs, trace st' = trace st ++ evs.

Definition keeps_session `{RasEnv} {A} (m : M A) : Prop :=
  ∀ st, outside_only st (m st).2.

Definition appends `{RasEnv} {A} (m : M A) : Prop :=
  ∀ st, trace_grows st (m st).2.

(** The state in which a call of [update_user_visas] makes its first call
    to the outside: after [user.ga4gh_visas_v1 = []] and [commit()]. *)
Definition cleared `{RasEnv} (st : State) : State :=
  ((set_visas_empty ;; db_commit) st).2.

(** The state in which the next try starts when the retrieval raised [e]
    in [st1]: the exception is logged and the decorator backs off. *)
Definition after_failed_retrieval `{RasEnv} (e : exn) (st1 : State) : State :=
  with_trace
    (with_trace st1
       [EvLog (LogException ("Could not retrieve visas: " +:+ exn_msg e))])
    [EvBackoff].

(** The retrieval raises in this try and in each of the tries that follow
    it, [tries_left] at most. *)
Fixpoint retrieval_fails_on_every_try `{RasEnv} (tries_left : nat) (st : State)
    : bool :=
  match retrieve_visas (cleared st) with
  | (Ok _, _) => false
  | (Raise e, st1) =>
      if giveup e then true
      else
        match tries_left with
        | O => true
        | S n => retrieval_fails_on_every_try n (after_failed_retrieval e st1)
        end
  end.

(** A row built from a visa that [validate_jwt] accepted, with some key,
    and whose claims carry [sub]. *)
Definition validated_row `{RasEnv} (row : GA4GHVisaV1) : Prop :=
  ∃ key decoded_visa,
    validate_jwt (ga4gh_visa row) key GA4GH_VISA_ISSUER_ALLOWLIST
    = Ok decoded_visa
    ∧ dict_has decoded_visa "sub" = true
    ∧ visa_of_claims decoded_visa (ga4gh_visa row) = Ok row.

(** The key-set fetches a trace records, as (issuer, key id) pairs. *)
Definition key_fetches (tr : list event) : list (string * string) :=
  omap (λ ev, match ev with
              | EvCall (KeySetFetch issuer kid) => Some (issuer, kid)
              | _ => None
              end) tr.

(** The key a visa of this issuer and key id is validated with, given the
    cache and the world: the cached key, on a miss the key the refresh
    returns; [None] when the visa is dropped for want of a key. *)
Definition key_for `{RasEnv} (cache : pkey_cache_t) (w : World)
    (visa_issuer visa_kid : string) : option json :=
  let cached := cache_lookup cache visa_issuer visa_kid in
  if get_truthy cached then cached
  else
    match refresh_cronjob_pkey_cache visa_issuer visa_kid cache w with
    | (Ok public_key, _, _) =>
        if get_truthy public_key then public_key else None
    | (Raise _, _, _) => None
    end.

(** [st'] is [st] after steps that change nothing but the world and the
    trace: the session, the key cache and [flask.g] are as they were. *)
Definition world_only `{RasEnv} (st st' : State) : Prop :=
  session st' = session st
  ∧ pkey_cache st' = pkey_cache st
  ∧ flask_g st' = flask_g st.

Definition provider_only `{RasEnv} {A} (m : M A) : Prop :=
  ∀ st, world_only st (m st).2.

(** A computation that appends to the trace only events of one kind. *)
Definition emits_only `{RasEnv} {A} (kind : event → bool) (m : M A) : Prop :=
  ∀ st, ∃ evs, trace (m st).2 = trace st ++ evs
               ∧ Forall (λ ev, kind ev = true) evs.

(** The kinds of events the statements tell apart. *)
Definition call_or_log (ev : event) : bool :=
  match ev with
  | EvCall _ | EvLog _ => true
  | _ => false
  end.

Definition loop_event (ev : event) : bool :=
  match ev with
  | EvCall (KeySetFetch _ _) | EvLog _ | EvAddVisa _ | EvCommit => true
  | _ => false
  end.

Definition is_backoff (ev : event) : bool :=
  match ev with EvBackoff => true | _ => false end.

Definition is_clear (ev : event) : bool :=
  match ev with EvSetVisas [] => true | _ => false end.

(** How many events of a kind a trace holds. *)
Definition count_events (kind : event → bool) (tr : list event) : nat :=
  length (List.filter kind tr).

(** The row collection after [GA4GHVisaV1(...)], [add] and [commit()]. *)
Definition stored (row : GA4GHVisaV1) (s : Session) : Session :=
  commit {| user := set_visas (user s) (ga4gh_visas_v1 (user s) ++ [row]);
            committed_visas := committed_visas s |}.

(** * Sample collaborators

    Concrete values for the outside world, on which the definitions above
    run: the statements below are applied to them to show that their
    hypotheses can be met. *)

(** A user with one stored visa, as the session and the database hold it. *)
Definition stale_visa : GA4GHVisaV1 :=
  {| source := JStr "https://ncbi.nlm.nih.gov/gap";
     type := JStr "https://ras.nih.gov/visas/v1.1";
     asserted := 1600000000; expires := 1600003600;
     ga4gh_visa := "old.visa.token" |}.

Definition sample_user : User :=
  {| email := Some "user@university.edu"; display_name := None;
     phone_number := Some ""; ga4gh_visas_v1 := [stale_visa] |}.

Definition sample_session : Session :=
  {| user := sample_user; committed_visas := [stale_visa] |}.

Definition sample_permission (phs_id consent_group role : string)
    : permission :=
  {[ "phs_id" := phs_id; "consent_group" := consent_group;
     "role" := role ]}.

Definition sample_permissions : list permission :=
  [ sample_permission "phs000200" "c1" "member";
    sample_permission "phs000300" "c2" "pi" ].

(** A decoder that knows one visa, and a clock. *)
Definition sample_sync_env : RasSyncEnv :=
  {| jwt_decode := λ encoded,
       if String.eqb encoded "ras.visa.token"
       then Some {| ras_dbgap_permissions := Some sample_permissions |}
       else None;
     now := 1700000000 # 1 |}.

(** A token library in the manner of cdispyutils: the current request
    carries an unexpired token with the audiences [request_aud], accepted
    when every required audience is among them; three refresh tokens are
    known by name. *)
Definition sample_validator_env (request_aud : list string) : ValidatorEnv :=
  {| validate_request_jwt := λ aud,
       if bool_decide (aud ⊆ list_to_set request_aud)
       then Ok [("aud", JArr (JStr <$> request_aud))]
       else Raise (mkExn JWTValidationError "missing audiences");
     auth_validate_jwt := λ encoded_token _ _ _,
       if String.eqb encoded_token "refresh.revoked"
       then Ok [("jti", JStr "f8733984-8164"); ("aud", JArr [JStr "refresh"])]
       else if String.eqb encoded_token "refresh.live"
       then Ok [("jti", JStr "0b1c2d3e-4f50"); ("aud", JArr [JStr "refresh"])]
       else if String.eqb encoded_token "refresh.nojti"
       then Ok [("aud", JArr [JStr "refresh"])]
       else Raise (mkExn JWTValidationError "Not enough segments");
     default_public_key := "-----BEGIN PUBLIC KEY-----";
     HOST_NAME := "https://fence.example.org" |}.

Definition sample_blacklist : list BlacklistedToken :=
  [ {| jti := "aaaa0000-0000" |}; {| jti := "f8733984-8164" |} ].

Definition fresh_request : ValidatorState :=
  {| error_message := None; app_log := [] |}.

(** A provider and one visa issuer, described by what they answer. The
    world counts the requests served. Four visas are known by name:
    ["visa.good"] is valid, ["visa.nosub"] is valid but for a missing
    [sub] claim, ["visa.otherkid"] names a key the issuer does not publish,
    and ["not-a-jwt"] has no readable issuer. *)
Record Scenario := mkScenario {
  provider_up : bool;
  keyset_up : bool;
  userinfo_doc : jdict;
  id_claims : jdict;
  passport_visas : list string
}.

Definition sample_issuer : string := "https://stsstg.nih.gov".

Definition sample_visa_claims : jdict :=
  [ ("iss", JStr sample_issuer); ("sub", JStr "b3a1-user");
    ("iat", JNum 1700000000); ("exp", JNum 1700003600);
    ("scope", JStr "openid");
    ("ga4gh_visa_v1",
     JObj [ ("type", JStr "https://ras.nih.gov/visas/v1.1");
            ("asserted", JNum 1699990000);
            ("value", JStr "https://stsstg.nih.gov/passport/dbgap/v1.1");
            ("source", JStr "https://ncbi.nlm.nih.gov/gap") ]) ].

Definition sample_visa_claims_nosub : jdict :=
  filter (λ kv, negb (String.eqb kv.1 "sub")) sample_visa_claims.

Definition sample_keyset : gmap string json :=
  {[ "kid-1" := JStr "-----BEGIN PUBLIC KEY----- kid-1" ]}.

Definition provider_down : exn :=
  mkExn (OtherException "HTTPError") "503 Service Unavailable".

Definition sample_ras_env (sc : Scenario) : RasEnv :=
  {| World := nat;
     get_value_from_discovery_doc := λ key _ w,
       (Ok ("https://stsstg.nih.gov/" +:+ key), w);
     get_token := λ _ _ w,
       (if provider_up sc
        then Ok [("access_token", JStr "at-1"); ("id_token", JStr "idt-1")]
        else Raise provider_down, S w);
     get_jwt_keys := λ _ w, (Ok (JObj [("keys", JArr [])]), S w);
     get_access_token := λ _ _ w,
       (if provider_up sc
        then Ok [("access_token", JStr "at-1")]
        else Raise provider_down, S w);
     requests_get := λ _ _ w,
       (Ok {| status_code := 200; text := "";
              json_body := Ok (JObj (userinfo_doc sc)) |}, S w);
     jose_jwt_decode := λ token _,
       match token with
       | JStr "idt-1" => Ok (id_claims sc)
       | JStr _ => Ok [("txn", JStr "txn-1")]
       | _ => Raise (mkExn JWTError "Invalid token")
       end;
     get_unvalidated_visas_from_valid_passport := λ passport cache w,
       match passport with
       | Some _ => (Ok (passport_visas sc), cache, w)
       | None => (Ok [], cache, w)
       end;
     get_iss := λ encoded,
       if String.eqb encoded "not-a-jwt"
       then Raise (mkExn JWTError "Not enough segments")
       else Ok sample_issuer;
     get_kid := λ encoded,
       if String.eqb encoded "visa.otherkid" then Ok "kid-9" else Ok "kid-1";
     refresh_cronjob_pkey_cache := λ issuer kid cache w,
       if keyset_up sc
       then (Ok (sample_keyset !! kid), <[issuer := sample_keyset]> cache,
             S w)
       else (Raise (mkExn JWTError "Could not get public key"), cache, S w);
     validate_jwt := λ encoded _ _,
       if String.eqb encoded "visa.good" then Ok sample_visa_claims
       else if String.eqb encoded "visa.nosub"
       then Ok sample_visa_claims_nosub
       else Raise (mkExn JWTError "Signature verification failed");
     RAS_USERINFO_ENDPOINT := "/openid/connect/v1.1/userinfo";
     GA4GH_VISA_ISSUER_ALLOWLIST := [sample_issuer];
     max_tries := 3;
     giveup := λ _, false;
     int_of_str := λ _, None |}.

(** The state a sync starts from: the stored visa, a cache, nothing
    served yet. *)
Definition sample_state (sc : Scenario) (cache : pkey_cache_t)
    : @State (sample_ras_env sc) :=
  @mkState (sample_ras_env sc) sample_session cache 0%nat None [].

Definition userinfo_with_passport : jdict :=
  [ ("preferred_username", JStr "jdoe"); ("email", JStr "jdoe@nih.gov");
    ("passport_jwt_v11", JStr "passport.jwt") ].

(** The provider refuses every token request. *)
Definition scenario_down : Scenario :=
  {| provider_up := false; keyset_up := true;
     userinfo_doc := userinfo_with_passport; id_claims := [];
     passport_visas := [] |}.

(** The provider answers with the given visas in the passport. *)
Definition scenario_visas (visas : list string) (keys_up : bool) : Scenario :=
  {| provider_up := true; keyset_up := keys_up;
     userinfo_doc := userinfo_with_passport;
     id_claims := [("sub", JStr "b3a1-user")];
     passport_visas := visas |}.

(** The row the valid sample visa yields, and a cache that already holds
    its issuer's key. *)
Definition sample_row : GA4GHVisaV1 :=
  {| source := JStr "https://ncbi.nlm.nih.gov/gap";
     type := JStr "https://ras.nih.gov/visas/v1.1";
     asserted := 1699990000; expires := 1700003600;
     ga4gh_visa := "visa.good" |}.

Definition warm_cache : pkey_cache_t := {[ sample_issuer := sample_keyset ]}.

(** A decoder that knows two visas whose permission lists hold the same
    entries in a different order, one of them twice. *)
Definition sample_sync_env_reordered : RasSyncEnv :=
  {| jwt_decode := λ encoded,
       if String.eqb encoded "ras.visa.token"
       then Some {| ras_dbgap_permissions := Some sample_permissions |}
       else if String.eqb encoded "ras.visa.reordered"
       then Some {| ras_dbgap_permissions :=
                      Some (reverse sample_permissions ++ sample_permissions) |}
       else None;
     now := 1700000000 # 1 |}.

(** The sample provider with a user-info endpoint that answers with the
    given status, and an issuer that also signs ["visa.bare"], a token
    with a [sub] claim and no [ga4gh_visa_v1] claim. *)
Definition sample_ras_env_status (sc : Scenario) (status : Z) : RasEnv :=
  {| World := nat;
     get_value_from_discovery_doc :=
       @get_value_from_discovery_doc (sample_ras_env sc);
     get_token := @get_token (sample_ras_env sc);
     get_jwt_keys := @get_jwt_keys (sample_ras_env sc);
     get_access_token := @get_access_token (sample_ras_env sc);
     requests_get := λ _ _ w,
       (Ok {| status_code := status; text := "upstream error";
              json_body := Ok (JObj (userinfo_doc sc)) |}, S w);
     jose_jwt_decode := @jose_jwt_decode (sample_ras_env sc);
     get_unvalidated_visas_from_valid_passport :=
       @get_unvalidated_visas_from_valid_passport (sample_ras_env sc);
     get_iss := @get_iss (sample_ras_env sc);
     get_kid := @get_kid (sample_ras_env sc);
     refresh_cronjob_pkey_cache :=
       @refresh_cronjob_pkey_cache (sample_ras_env sc);
     validate_jwt := λ encoded key issuers,
       if String.eqb encoded "visa.bare"
       then Ok [("iss", JStr sample_issuer); ("sub", JStr "b3a1-user");
                ("exp", JNum 1700003600)]
       else @validate_jwt (sample_ras_env sc) encoded key issuers;
     RAS_USERINFO_ENDPOINT := @RAS_USERINFO_ENDPOINT (sample_ras_env sc);
     GA4GH_VISA_ISSUER_ALLOWLIST :=
       @GA4GH_VISA_ISSUER_ALLOWLIST (sample_ras_env sc);
     max_tries := 3;
     giveup := λ _, false;
     int_of_str := λ _, None |}.

Definition sample_state_status (sc : Scenario) (status : Z)
    (cache : pkey_cache_t) : @State (sample_ras_env_status sc status) :=
  @mkState (sample_ras_env_status sc status) sample_session cache 0%nat
    None [].

(** * Properties *)

(** ** The access mapper ([_parse_single_visa]) *)

Section RasSyncFacts.
Context `{RasSyncEnv}.

Lemma permission_loop_snoc pcc (perms : list permission) p acc :
  permission_loop pcc (perms ++ [p]) acc
  = permission_step pcc (permission_loop pcc perms acc) p.
Proof. unfold permission_loop. by rewrite fold_left_app. Qed.

(** Every permission of the list has its access key in the project map,
    with the fixed privilege set. *)
Lemma permission_loop_key pcc (perms : list permission) acc p :
  p ∈ perms →
  (permission_loop pcc perms acc).1 !! full_phsid pcc p = Some privileges.
Proof.
  induction perms as [|q perms IH] using rev_ind; intros Hin.
  - by apply elem_of_nil in Hin.
  - rewrite permission_loop_snoc. cbn [permission_step fst].
    apply elem_of_app in Hin as [Hin|Hin].
    + destruct (decide (full_phsid pcc q = full_phsid pcc p)) as [->|Hne].
      * apply lookup_insert_eq.
      * rewrite lookup_insert_ne by done. by apply IH.
    + apply list_elem_of_singleton in Hin as ->. apply lookup_insert_eq.
Qed.

(** An entry of the project map is one the loop started with or the access
    key of a permission, bound to the fixed privilege set. *)
Lemma permission_loop_entry pcc (perms : list permission) acc k v :
  (permission_loop pcc perms acc).1 !! k = Some v →
  acc.1 !! k = Some v
  ∨ (v = privileges ∧ ∃ p, p ∈ perms ∧ k = full_phsid pcc p).
Proof.
  induction perms as [|q perms IH] using rev_ind.
  - cbn. by left.
  - rewrite permission_loop_snoc. cbn [permission_step fst].
    destruct (decide (full_phsid pcc q = k)) as [<-|Hne].
    + rewrite lookup_insert_eq. intros [= <-]. right. split; [done|].
      exists q. split; [|done]. apply elem_of_app. right.
      by apply list_elem_of_singleton.
    + rewrite lookup_insert_ne by done. intros Hk.
      destruct (IH Hk) as [?|[-> (p & Hp & ->)]]; [by left|].
      right. split; [done|]. exists p. split; [|done].
      apply elem_of_app. by left.
Qed.

(** After the loop the tags hold the role of the last permission only. *)
Lemma permission_loop_tags pcc (perms : list permission) p acc :
  (permission_loop pcc (perms ++ [p]) acc).2
  = {[ "dbgap_role" := default "" (p !! "role") ]}.
Proof. by rewrite permission_loop_snoc. Qed.

(** The function on a visa that decodes and has not expired. *)
Lemma parse_single_visa_live s encoded_visa expires_at pcc d :
  jwt_decode encoded_visa = Some d →
  (now < inject_Z expires_at)%Q →
  _parse_single_visa s encoded_visa expires_at pcc
  = ((permission_loop pcc (default [] (ras_dbgap_permissions d)) (∅, ∅)).1,
     {| tags := (permission_loop pcc
                   (default [] (ras_dbgap_permissions d)) (∅, ∅)).2;
        info_email := or_empty (email (user s));
        info_display_name := or_empty (display_name (user s));
        info_phone_number := or_empty (phone_number (user s)) |},
     s).
Proof.
  intros Hd Hlt. unfold _parse_single_visa. rewrite Hd.
  destruct (Qlt_le_dec now (inject_Z expires_at)) as [_|Hle].
  - by destruct (permission_loop _ _ _).
  - exfalso. exact (Qlt_not_le _ _ Hlt Hle).
Qed.

(** C5. A visa whose [expires] is not after the current time gives an empty
    project map and leaves the user's visa collection empty, in the session
    and in the database; an entry in the project map means the visa expires
    strictly after the current time. *)
Theorem expired_visa_grants_nothing_and_clears s encoded_visa expires_at pcc :
  let r := _parse_single_visa s encoded_visa expires_at pcc in
  ((inject_Z expires_at <= now)%Q →
     r.1.1 = ∅
     ∧ ga4gh_visas_v1 (user r.2) = []
     ∧ committed_visas r.2 = [])
  ∧ (∀ k, is_Some (r.1.1 !! k) → (now < inject_Z expires_at)%Q).
Proof.
  cbv zeta. unfold _parse_single_visa.
  destruct (jwt_decode encoded_visa) as [d|];
    destruct (Qlt_le_dec now (inject_Z expires_at)) as [Hlt|Hge];
    cbn; try destruct (permission_loop _ _ _) as [project tgs] eqn:Hloop;
    cbn; (split; [intros Hle | intros k [v Hk]]);
    try done;
    try (exfalso; exact (Qlt_not_le _ _ Hlt Hle));
    try (by rewrite lookup_empty in Hk).
Qed.

(** C6. For a permission with [phs_id = "phs000200"] and
    [consent_group = "c1"] in a visa that decodes and has not expired, the
    access key is ["phs000200.c1"] when consent codes are parsed and
    ["phs000200"] when they are not; the project map binds it, and every
    other key it holds, to exactly [{"read", "read-storage"}]. *)
Theorem consent_code_composition s encoded_visa expires_at pcc d perms
    (p : permission) :
  jwt_decode encoded_visa = Some d →
  ras_dbgap_permissions d = Some perms →
  p ∈ perms →
  (now < inject_Z expires_at)%Q →
  p !! "phs_id" = Some "phs000200" →
  p !! "consent_group" = Some "c1" →
  let project := (_parse_single_visa s encoded_visa expires_at pcc).1.1 in
  full_phsid pcc p = (if pcc then "phs000200.c1" else "phs000200")
  ∧ project !! (if pcc then "phs000200.c1" else "phs000200")
    = Some ({[ "read"; "read-storage" ]} : gset string)
  ∧ (∀ k v, project !! k = Some v → v = {[ "read"; "read-storage" ]}).
Proof.
  intros Hd Hperms Hin Hlt Hphs Hcg. cbv zeta.
  rewrite (parse_single_visa_live _ _ _ _ _ Hd Hlt), Hperms.
  cbn [fst default from_option id].
  assert (Hkey : full_phsid pcc p
                 = (if pcc then "phs000200.c1" else "phs000200")).
  { unfold full_phsid. rewrite Hphs, Hcg. by destruct pcc. }
  assert (Hpriv : privileges = ({[ "read"; "read-storage" ]} : gset string)).
  { unfold privileges. apply (comm_L (∪)). }
  split; [done|]. split.
  - rewrite <- Hkey, <- Hpriv. by apply permission_loop_key.
  - intros k v Hk. apply permission_loop_entry in Hk as [Hk|[-> _]].
    + cbn in Hk. by rewrite lookup_empty in Hk.
    + done.
Qed.

(** C10. For a visa that decodes and has not expired and whose permission
    list has two or more entries, the returned tags are the single entry
    [dbgap_role] with the role of the last permission, while the project
    map has the access key of every permission. *)
Theorem tags_keep_last_role_only s encoded_visa expires_at pcc d perms
    (p_last : permission) :
  jwt_decode encoded_visa = Some d →
  ras_dbgap_permissions d = Some perms →
  (now < inject_Z expires_at)%Q →
  (2 ≤ length perms)%nat →
  last perms = Some p_last →
  let r := _parse_single_visa s encoded_visa expires_at pcc in
  tags r.1.2 = {[ "dbgap_role" := default "" (p_last !! "role") ]}
  ∧ (∀ k role, tags r.1.2 !! k = Some role →
       k = "dbgap_role" ∧ role = default "" (p_last !! "role"))
  ∧ (∀ q, q ∈ perms → r.1.1 !! full_phsid pcc q = Some privileges).
Proof.
  intros Hd Hperms Hlt Hlen Hlast. cbv zeta.
  rewrite (parse_single_visa_live _ _ _ _ _ Hd Hlt), Hperms.
  cbn [fst snd default from_option id tags].
  destruct (last_Some perms p_last) as [[front ->] _]; [done|].
  rewrite permission_loop_tags. split; [done|]. split.
  - intros k role Hk. by apply lookup_singleton_Some in Hk as [<- <-].
  - intros q Hq. by apply permission_loop_key.
Qed.

End RasSyncFacts.

Lemma expired_visa_grants_nothing_and_clears_witness :
  let r := @_parse_single_visa sample_sync_env sample_session
             "ras.visa.token" 1700000000 true in
  r.1.1 = ∅ ∧ ga4gh_visas_v1 (user r.2) = [] ∧ committed_visas r.2 = [].
Proof.
  apply (@expired_visa_grants_nothing_and_clears sample_sync_env
           sample_session "ras.visa.token" 1700000000 true).
  vm_compute. discriminate.
Defined.

Lemma consent_code_composition_witness :
  (@_parse_single_visa sample_sync_env sample_session
     "ras.visa.token" 1700000001 true).1.1 !! "phs000200.c1"
  = Some ({[ "read"; "read-storage" ]} : gset string)
  ∧ (@_parse_single_visa sample_sync_env sample_session
       "ras.visa.token" 1700000001 false).1.1 !! "phs000200"
    = Some ({[ "read"; "read-storage" ]} : gset string).
Proof.
  split.
  - refine (proj1 (proj2 (@consent_code_composition sample_sync_env
      sample_session "ras.visa.token" 1700000001 true
      {| ras_dbgap_permissions := Some sample_permissions |}
      sample_permissions (sample_permission "phs000200" "c1" "member")
      eq_refl eq_refl _ _ _ _))).
    + apply list_elem_of_here.
    + reflexivity.
    + vm_compute; reflexivity.
    + vm_compute; reflexivity.
  - refine (proj1 (proj2 (@consent_code_composition sample_sync_env
      sample_session "ras.visa.token" 1700000001 false
      {| ras_dbgap_permissions := Some sample_permissions |}
      sample_permissions (sample_permission "phs000200" "c1" "member")
      eq_refl eq_refl _ _ _ _))).
    + apply list_elem_of_here.
    + reflexivity.
    + vm_compute; reflexivity.
    + vm_compute; reflexivity.
Defined.

Lemma tags_keep_last_role_only_witness :
  tags (@_parse_single_visa sample_sync_env sample_session
          "ras.visa.token" 1700000001 true).1.2
  = {[ "dbgap_role" := "pi" ]}.
Proof.
  refine (proj1 (@tags_keep_last_role_only sample_sync_env sample_session
    "ras.visa.token" 1700000001 true
    {| ras_dbgap_permissions := Some sample_permissions |}
    sample_permissions (sample_permission "phs000300" "c2" "pi")
    eq_refl eq_refl _ _ eq_refl)).
  - reflexivity.
  - vm_compute; lia.
Defined.

(** ** The local token validator *)

Section ValidatorFacts.
Context `{ValidatorEnv}.

(** An empty token is refused before anything else is looked at. *)
Lemma validate_bearer_token_empty scopes st :
  validate_bearer_token "" scopes st
  = (Ok false, {| error_message := Some "No token provided.";
                  app_log := app_log st ++
                             [LogException "No token provided."] |}).
Proof. reflexivity. Qed.

(** A token the library refuses is refused, with the library's reason. *)
Lemma validate_bearer_token_refused token scopes st msg :
  truthy token = true →
  validate_request_jwt (bearer_audience scopes)
  = Raise (mkExn JWTValidationError msg) →
  validate_bearer_token token scopes st
  = (Ok false, {| error_message := Some msg;
                  app_log := app_log st ++ [LogException msg] |}).
Proof.
  intros Htok Hlib. unfold validate_bearer_token. by rewrite Htok, Hlib.
Qed.

(** The audience set handed to the library: the scopes and the four
    letters of the word, never the word itself unless a scope is it. *)
Lemma bearer_audience_spec scopes :
  bearer_audience scopes
  = list_to_set scopes ∪ {[ "a"; "c"; "e"; "s" ]}.
Proof.
  unfold bearer_audience, set_update_str. f_equal.
Qed.

(** The word is required only when the caller's scopes already name it. *)
Lemma bearer_audience_access scopes :
  "access" ∈ bearer_audience scopes ↔ "access" ∈ scopes.
Proof.
  rewrite bearer_audience_spec, elem_of_union, elem_of_list_to_set.
  split; [intros [Hin|Hin]; [done|] | by left].
  exfalso. revert Hin. rewrite !elem_of_union, !elem_of_singleton.
  by intros [[[|]|]|].
Qed.

(** C2. A refresh token that passes [auth.validate_jwt] is refused, with
    the reason on the request, when its [jti] is that of a blacklisted
    row, and when it has no [jti] claim. *)
Theorem blacklisted_or_missing_jti_rejected blacklist refresh_token st
    claims :
  auth_validate_jwt refresh_token default_public_key {[ "refresh" ]} HOST_NAME
  = Ok claims →
  let r := validate_refresh_token blacklist refresh_token st in
  (∀ J, dict_get claims "jti" = Some (JStr J) →
        (∃ row, row ∈ blacklist ∧ jti row = J) →
        r.1 = Ok false
        ∧ error_message r.2
          = Some (if negb (truthy refresh_token) then "No token provided."
                  else if truthy J then "Token is blacklisted."
                  else "Token missing jti claim."))
  ∧ (dict_get claims "jti" = None →
        r.1 = Ok false
        ∧ error_message r.2
          = Some (if negb (truthy refresh_token) then "No token provided."
                  else "Token missing jti claim.")).
Proof.
  intros Hvalid. cbv zeta. unfold validate_refresh_token.
  destruct (truthy refresh_token); cbn [negb]; [|done].
  rewrite Hvalid. split.
  - intros J HJ (row & Hrow & Hjti). rewrite HJ. cbn [get_truthy json_truthy].
    destruct (truthy J); cbn [negb]; [|done].
    cbn [blacklisted_first].
    destruct (find _ blacklist) as [found|] eqn:Hfind; [done|].
    exfalso.
    apply list_elem_of_In in Hrow.
    apply (find_none _ _ Hfind) in Hrow.
    rewrite Hjti in Hrow. by rewrite String.eqb_refl in Hrow.
  - intros HJ. by rewrite HJ.
Qed.

End ValidatorFacts.

Lemma blacklisted_or_missing_jti_rejected_witness :
  (@validate_refresh_token (sample_validator_env []) sample_blacklist
     "refresh.revoked" fresh_request).1 = Ok false
  ∧ (@validate_refresh_token (sample_validator_env []) sample_blacklist
       "refresh.nojti" fresh_request).1 = Ok false.
Proof.
  split.
  - refine (proj1 (proj1 (@blacklisted_or_missing_jti_rejected
      (sample_validator_env []) sample_blacklist "refresh.revoked"
      fresh_request _ eq_refl) "f8733984-8164" eq_refl _)).
    exists {| jti := "f8733984-8164" |}. split; [|reflexivity].
    apply list_elem_of_further, list_elem_of_here.
  - exact (proj1 (proj2 (@blacklisted_or_missing_jti_rejected
      (sample_validator_env []) sample_blacklist "refresh.nojti"
      fresh_request _ eq_refl) eq_refl)).
Defined.

(** A refresh token that is not revoked is accepted: the refusals above do
    not come from refusing everything. *)
Example live_refresh_token_accepted :
  (@validate_refresh_token (sample_validator_env []) sample_blacklist
     "refresh.live" fresh_request).1 = Ok true.
Proof. reflexivity. Qed.

(** C1. The audience set handed to the library holds the word ["access"]
    only when a scope is that word. At the scope list [["data"]] it is the
    scope and the letters a, c, e, s; so a token whose audiences are those
    five and not ["access"] is accepted, and a token with the audiences
    ["access"] and ["data"] is refused. *)
Theorem bearer_audience_omits_access :
  (∀ scopes, "access" ∈ bearer_audience scopes ↔ "access" ∈ scopes)
  ∧ bearer_audience ["data"] = {[ "data"; "a"; "c"; "e"; "s" ]}
  ∧ ("access" ∉ bearer_audience ["data"])
  ∧ (@validate_bearer_token
       (sample_validator_env ["data"; "a"; "c"; "e"; "s"])
       "eyJ.access.token" ["data"] fresh_request).1 = Ok true
  ∧ (@validate_bearer_token
       (sample_validator_env ["access"; "data"])
       "eyJ.access.token" ["data"] fresh_request).1 = Ok false.
Proof.
  split; [|split; [|split; [|split]]].
  - apply bearer_audience_access.
  - vm_compute. reflexivity.
  - rewrite bearer_audience_access, list_elem_of_singleton. discriminate.
  - vm_compute. reflexivity.
  - vm_compute. reflexivity.
Qed.

(** ** The federated client ([RASOauth2Client]) *)

Section RasOauth2Facts.
Context `{RasEnv}.

Lemma outside_only_refl st : outside_only st st.
Proof. split; [done|]. exists []. by rewrite app_nil_r. Qed.

Lemma outside_only_trans st1 st2 st3 :
  outside_only st1 st2 → outside_only st2 st3 → outside_only st1 st3.
Proof.
  intros [Hs1 [e1 Ht1]] [Hs2 [e2 Ht2]]. split; [congruence|].
  exists (e1 ++ e2). by rewrite Ht2, Ht1, app_assoc.
Qed.

Lemma trace_grows_trans st1 st2 st3 :
  trace_grows st1 st2 → trace_grows st2 st3 → trace_grows st1 st3.
Proof.
  intros [e1 Ht1] [e2 Ht2].
  exists (e1 ++ e2). by rewrite Ht2, Ht1, app_assoc.
Qed.

Lemma keeps_session_appends {A} (m : M A) : keeps_session m → appends m.
Proof. intros Hm st. by destruct (Hm st). Qed.

Lemma keeps_session_ret {A} (a : A) : keeps_session (mret a).
Proof. intros st. apply outside_only_refl. Qed.

Lemma keeps_session_raise {A} e : keeps_session (raise (A := A) e).
Proof. intros st. apply outside_only_refl. Qed.

Lemma keeps_session_lift {A} (r : result A) : keeps_session (lift r).
Proof. intros st. apply outside_only_refl. Qed.

Lemma keeps_session_bind {A B} (m : M A) (k : A → M B) :
  keeps_session m → (∀ a, keeps_session (k a)) → keeps_session (m ≫= k).
Proof.
  intros Hm Hk st. unfold mbind, M_bind, bind.
  specialize (Hm st). destruct (m st) as [[a|e] st1]; [|done].
  eapply outside_only_trans; [exact Hm|]. apply Hk.
Qed.

Lemma keeps_session_try_except {A} (m : M A) (h : exn → M A) :
  keeps_session m → (∀ e, keeps_session (h e)) →
  keeps_session (try_except m h).
Proof.
  intros Hm Hh st. unfold try_except.
  specialize (Hm st). destruct (m st) as [[a|e] st1]; [done|].
  eapply outside_only_trans; [exact Hm|]. apply Hh.
Qed.

Lemma keeps_session_emit ev : keeps_session (emit ev).
Proof. intros st. split; [done|]. by exists [ev]. Qed.

Lemma keeps_session_log r : keeps_session (log r).
Proof. apply keeps_session_emit. Qed.

Lemma keeps_session_call {A} c (f : World → result A * World) :
  keeps_session (call c f).
Proof.
  intros st. unfold call. destruct (f (world st)) as [r w].
  split; [done|]. by exists [EvCall c].
Qed.

Lemma keeps_session_call_cached {A} c
    (f : pkey_cache_t → World → result A * pkey_cache_t * World) :
  keeps_session (call_cached c f).
Proof.
  intros st. unfold call_cached.
  destruct (f (pkey_cache st) (world st)) as [[r cache] w].
  split; [done|]. by exists [EvCall c].
Qed.

Lemma keeps_session_set_flask_g g : keeps_session (set_flask_g g).
Proof.
  intros st. split; [done|]. exists []. cbn. by rewrite app_nil_r.
Qed.

Lemma appends_bind {A B} (m : M A) (k : A → M B) :
  appends m → (∀ a, appends (k a)) → appends (m ≫= k).
Proof.
  intros Hm Hk st. unfold mbind, M_bind, bind.
  specialize (Hm st). destruct (m st) as [[a|e] st1]; [|done].
  eapply trace_grows_trans; [exact Hm|]. apply Hk.
Qed.

Lemma appends_try_except {A} (m : M A) (h : exn → M A) :
  appends m → (∀ e, appends (h e)) → appends (try_except m h).
Proof.
  intros Hm Hh st. unfold try_except.
  specialize (Hm st). destruct (m st) as [[a|e] st1]; [done|].
  eapply trace_grows_trans; [exact Hm|]. apply Hh.
Qed.

Lemma appends_on_session f ev : appends (on_session f ev).
Proof. intros st. by exists [ev]. Qed.

Lemma keeps_session_get_state : keeps_session get_state.
Proof. intros st. apply outside_only_refl. Qed.

(** Closes a [keeps_session] or [appends] goal over a computation built
    from the steps above. *)
Ltac step_frame :=
  repeat lazymatch goal with
    | |- keeps_session (mret _) => apply keeps_session_ret
    | |- keeps_session (raise _) => apply keeps_session_raise
    | |- keeps_session (lift _) => apply keeps_session_lift
    | |- keeps_session (log _) => apply keeps_session_log
    | |- keeps_session (emit _) => apply keeps_session_emit
    | |- keeps_session (call _ _) => apply keeps_session_call
    | |- keeps_session (call_cached _ _) => apply keeps_session_call_cached
    | |- keeps_session (set_flask_g _) => apply keeps_session_set_flask_g
    | |- keeps_session get_state => apply keeps_session_get_state
    | |- keeps_session (mbind _ _) => apply keeps_session_bind
    | |- keeps_session (try_except _ _) => apply keeps_session_try_except
    | |- keeps_session (if ?b then _ else _) => destruct b
    | |- keeps_session (match ?x with _ => _ end) => destruct x
    | |- appends (on_session _ _) => apply appends_on_session
    | |- appends (mbind _ _) => apply appends_bind
    | |- appends (try_except _ _) => apply appends_try_except
    | |- appends (if ?b then _ else _) => destruct b
    | |- appends (match ?x with _ => _ end) => destruct x
    | |- appends (log _) => apply keeps_session_appends
    | |- appends (emit _) => apply keeps_session_appends
    | |- appends (mret _) => apply keeps_session_appends
    | |- appends (raise _) => apply keeps_session_appends
    | |- appends (lift _) => apply keeps_session_appends
    | |- appends (call _ _) => apply keeps_session_appends
    | |- appends (call_cached _ _) => apply keeps_session_appends
    | |- ∀ _, _ => intro
    end.

Lemma keeps_session_get_userinfo token : keeps_session (get_userinfo token).
Proof. unfold get_userinfo. step_frame. Qed.

Lemma keeps_session_get_encoded_visas userinfo :
  keeps_session (get_encoded_visas_v11_userinfo userinfo).
Proof. unfold get_encoded_visas_v11_userinfo. step_frame. Qed.

Lemma keeps_session_retrieve_visas : keeps_session retrieve_visas.
Proof.
  unfold retrieve_visas. step_frame.
  - apply keeps_session_get_userinfo.
  - apply keeps_session_get_encoded_visas.
Qed.

Lemma keeps_session_resolve_public_key visa_issuer visa_kid :
  keeps_session (resolve_public_key visa_issuer visa_kid).
Proof.
  intros st. unfold resolve_public_key.
  destruct (negb _); [|apply outside_only_refl].
  apply keeps_session_try_except; step_frame.
Qed.

Lemma appends_validate_and_persist encoded_visa key :
  appends (validate_and_persist encoded_visa key).
Proof.
  unfold validate_and_persist, add_visa, db_commit. step_frame.
Qed.

Lemma appends_process_visa encoded_visa : appends (process_visa encoded_visa).
Proof.
  unfold process_visa. step_frame.
  - apply keeps_session_appends, keeps_session_resolve_public_key.
  - apply appends_validate_and_persist.
Qed.

Lemma appends_visa_loop encoded_visas : appends (visa_loop encoded_visas).
Proof.
  induction encoded_visas as [|v rest IH]; cbn [visa_loop].
  - step_frame.
  - apply appends_bind; [apply appends_process_visa|]. intros _. exact IH.
Qed.

Lemma appends_backoff_on_exception {A} tries_left (m : M A) :
  appends m → appends (backoff_on_exception tries_left m).
Proof.
  intros Hm. induction tries_left as [|n IH]; intros st;
    cbn [backoff_on_exception]; specialize (Hm st);
    destruct (m st) as [[a|e] st1]; try done;
    destruct (giveup e); try done.
  eapply trace_grows_trans; [exact Hm|].
  eapply trace_grows_trans; [|apply IH]. by exists [EvBackoff].
Qed.

Lemma cleared_trace st :
  trace (cleared st) = trace st ++ [EvSetVisas []; EvCommit].
Proof.
  unfold cleared, mbind, M_bind, bind, set_visas_empty, db_commit, on_session.
  cbn. by rewrite <- app_assoc.
Qed.

(** One call of the body, from the state in which the visas are cleared. *)
Lemma update_user_visas_once_unfold st :
  update_user_visas_once st
  = match retrieve_visas (cleared st) with
    | (Ok encoded_visas, st1) => visa_loop encoded_visas st1
    | (Raise e, st1) =>
        (Raise e,
         with_trace st1
           [EvLog (LogException ("Could not retrieve visas: " +:+
                                 exn_msg e))])
    end.
Proof.
  unfold update_user_visas_once, retrieve_and_store, cleared.
  unfold mbind, M_bind, bind, try_except.
  cbn [set_visas_empty db_commit on_session snd].
  by destruct (retrieve_visas _) as [[vs|e] st1].
Qed.

Lemma appends_retrieve_and_store : appends retrieve_and_store.
Proof.
  unfold retrieve_and_store. step_frame.
  - apply keeps_session_appends, keeps_session_retrieve_visas.
  - apply appends_visa_loop.
Qed.

Lemma update_user_visas_once_trace st :
  ∃ rest, trace (update_user_visas_once st).2
          = trace st ++ EvSetVisas [] :: EvCommit :: rest.
Proof.
  destruct (appends_retrieve_and_store (cleared st)) as [rest Hrest].
  exists rest.
  change (update_user_visas_once st) with (retrieve_and_store (cleared st)).
  rewrite Hrest, cleared_trace. by rewrite <- app_assoc.
Qed.

Lemma retrieval_keeps_cleared st r st1 :
  retrieve_visas (cleared st) = (r, st1) →
  ga4gh_visas_v1 (user (session st1)) = []
  ∧ committed_visas (session st1) = [].
Proof.
  intros Hr. destruct (keeps_session_retrieve_visas (cleared st)) as [Hs _].
  rewrite Hr in Hs. cbn [snd] in Hs. by rewrite Hs.
Qed.

Lemma backoff_after_failed_retrievals tries_left st :
  retrieval_fails_on_every_try tries_left st = true →
  ∃ e st',
    backoff_on_exception tries_left update_user_visas_once st = (Raise e, st')
    ∧ ga4gh_visas_v1 (user (session st')) = []
    ∧ committed_visas (session st') = [].
Proof.
  revert st. induction tries_left as [|n IH]; intros st Hfail;
    cbn [retrieval_fails_on_every_try] in Hfail;
    cbn [backoff_on_exception]; rewrite update_user_visas_once_unfold;
    destruct (retrieve_visas (cleared st)) as [[vs|e] st1] eqn:Hr;
    try done.
  - exists e. eexists. split; [by destruct (giveup e)|].
    by apply retrieval_keeps_cleared in Hr.
  - destruct (giveup e); [|exact (IH _ Hfail)].
    exists e. eexists. split; [done|].
    by apply retrieval_keeps_cleared in Hr.
Qed.

(** C3. Every call of the body, and so every sync, first empties the
    user's visa collection and commits, before any call to the outside;
    and when the retrieval of the token, the user info or the visas raises
    in each of the tries the backoff policy allows, [update_user_visas]
    raises and the user's visa collection is empty, in the session and in
    the database. *)
Theorem visas_cleared_first_and_empty_after_failed_sync st :
  (update_user_visas_once st = retrieve_and_store (cleared st)
   ∧ ga4gh_visas_v1 (user (session (cleared st))) = []
   ∧ committed_visas (session (cleared st)) = []
   ∧ (∃ rest, trace (update_user_visas_once st).2
              = trace st ++ EvSetVisas [] :: EvCommit :: rest)
   ∧ (∃ rest, trace (update_user_visas st).2
              = trace st ++ EvSetVisas [] :: EvCommit :: rest))
  ∧ (retrieval_fails_on_every_try (max_tries - 1) st = true →
     ∃ e st',
       update_user_visas st = (Raise e, st')
       ∧ ga4gh_visas_v1 (user (session st')) = []
       ∧ committed_visas (session st') = []).
Proof.
  pose proof (update_user_visas_once_trace st) as Honce.
  split; [split; [done|split; [done|split; [done|split; [done|]]]]|].
  - destruct Honce as [rest Honce].
    unfold update_user_visas.
    destruct (max_tries - 1)%nat as [|n]; cbn [backoff_on_exception];
      destruct (update_user_visas_once st) as [[[]|e] st1];
      cbn [snd] in Honce |- *; try (by exists rest);
      destruct (giveup e); try (by exists rest).
    assert (Hmore : appends (backoff_on_exception n update_user_visas_once)).
    { apply appends_backoff_on_exception. intros st2.
      destruct (update_user_visas_once_trace st2) as [evs Hevs].
      by exists (EvSetVisas [] :: EvCommit :: evs). }
    destruct (Hmore (with_trace st1 [EvBackoff])) as [evs Hevs].
    exists (rest ++ [EvBackoff] ++ evs).
    rewrite Hevs. cbn [with_trace trace]. rewrite Honce.
    by rewrite <- !app_assoc.
  - apply backoff_after_failed_retrievals.
Qed.

Lemma key_fetches_app tr1 tr2 :
  key_fetches (tr1 ++ tr2) = key_fetches tr1 ++ key_fetches tr2.
Proof. apply omap_app. Qed.

Lemma get_truthy_Some (o : option json) :
  get_truthy o = true → ∃ key, o = Some key ∧ json_truthy key = true.
Proof. destruct o as [key|]; [|done]. intros Hk. by exists key. Qed.

(** Key resolution on a hit: the cached key, and nothing else happens. *)
Lemma resolve_public_key_hit visa_issuer visa_kid st :
  get_truthy (cache_lookup (pkey_cache st) visa_issuer visa_kid) = true →
  resolve_public_key visa_issuer visa_kid st
  = (Ok (Some (cache_lookup (pkey_cache st) visa_issuer visa_kid)), st).
Proof. intros Hhit. unfold resolve_public_key. by rewrite Hhit. Qed.

(** Key resolution on a miss: one fetch, whose key is used; a fetch that
    raises is logged and ends the loop body. *)
Lemma resolve_public_key_miss visa_issuer visa_kid st :
  get_truthy (cache_lookup (pkey_cache st) visa_issuer visa_kid) = false →
  resolve_public_key visa_issuer visa_kid st
  = match refresh_cronjob_pkey_cache visa_issuer visa_kid
            (pkey_cache st) (world st) with
    | (Ok public_key, cache, w) =>
        (Ok (Some public_key),
         mkState (session st) cache w (flask_g st)
           (trace st ++ [EvCall (KeySetFetch visa_issuer visa_kid)]))
    | (Raise e, cache, w) =>
        (Ok None,
         mkState (session st) cache w (flask_g st)
           ((trace st ++ [EvCall (KeySetFetch visa_issuer visa_kid)])
            ++ [EvLog (LogError ("Could not refresh public key cache: "
                                 +:+ exn_msg e))]))
    end.
Proof.
  intros Hmiss. unfold resolve_public_key. rewrite Hmiss. cbn [negb].
  unfold try_except, mbind, M_bind, bind, call_cached.
  by destruct (refresh_cronjob_pkey_cache _ _ _ _) as [[[pk|e] cache] w].
Qed.

(** The loop body on a visa without a readable issuer or key id. *)
Lemma process_visa_malformed encoded_visa e st :
  issuer_and_kid encoded_visa = Raise e →
  process_visa encoded_visa st
  = (Ok tt,
     with_trace st
       [EvLog (LogError ("Could not get issuer or kid from visa: " +:+
                         exn_msg e +:+ ". Discarding visa."))]).
Proof. intros Hbad. unfold process_visa. by rewrite Hbad. Qed.

(** The loop body once issuer and key id are read. *)
Lemma process_visa_readable encoded_visa visa_issuer visa_kid st :
  issuer_and_kid encoded_visa = Ok (visa_issuer, visa_kid) →
  process_visa encoded_visa st
  = match resolve_public_key visa_issuer visa_kid st with
    | (Ok (Some public_key), st1) =>
        if get_truthy public_key
        then match public_key with
             | Some key => validate_and_persist encoded_visa key st1
             | None => (Ok tt, st1)
             end
        else log (LogError "Could not get public key to validate visa") st1
    | (Ok None, st1) => (Ok tt, st1)
    | (Raise e, st1) => (Raise e, st1)
    end.
Proof.
  intros Hread. unfold process_visa. rewrite Hread.
  unfold mbind, M_bind, bind.
  destruct (resolve_public_key _ _ st) as [[[[key|]|]|e] st1]; try done.
  cbn [get_truthy]. by destruct (json_truthy key).
Qed.

(** What validation and persistence do to the state. *)
Lemma validate_and_persist_spec encoded_visa key st :
  validate_and_persist encoded_visa key st
  = match validate_visa encoded_visa key with
    | Raise e =>
        (Ok tt,
         with_trace st
           [EvLog (LogError ("Visa failed validation: " +:+ exn_msg e +:+
                             ". Discarding visa."))])
    | Ok decoded_visa =>
        match visa_of_claims decoded_visa encoded_visa with
        | Raise e => (Raise e, st)
        | Ok row =>
            (Ok tt,
             mkState
               (commit
                  {| user := set_visas (user (session st))
                               (ga4gh_visas_v1 (user (session st)) ++ [row]);
                     committed_visas := committed_visas (session st) |})
               (pkey_cache st) (world st) (flask_g st)
               ((trace st ++ [EvAddVisa row]) ++ [EvCommit]))
        end
    end.
Proof.
  unfold validate_and_persist.
  destruct (validate_visa _ _) as [dv|e]; [|done].
  unfold mbind, M_bind, bind, lift.
  by destruct (visa_of_claims _ _) as [row|e].
Qed.

(** Validation and persistence fetch no key set and leave the cache and
    the world as they are. *)
Lemma validate_and_persist_no_fetch encoded_visa key st :
  let st' := (validate_and_persist encoded_visa key st).2 in
  key_fetches (trace st') = key_fetches (trace st)
  ∧ pkey_cache st' = pkey_cache st
  ∧ world st' = world st.
Proof.
  cbv zeta. rewrite validate_and_persist_spec.
  destruct (validate_visa _ _) as [dv|e];
    [destruct (visa_of_claims _ _) as [row|e]|]; cbn;
    rewrite ?key_fetches_app; cbn; by rewrite ?app_nil_r.
Qed.

(** With a key resolved, the loop body is validation and persistence, in
    a state that differs from the one it started in only outside the
    session. *)
Lemma process_visa_with_key encoded_visa visa_issuer visa_kid key st :
  issuer_and_kid encoded_visa = Ok (visa_issuer, visa_kid) →
  key_for (pkey_cache st) (world st) visa_issuer visa_kid = Some key →
  ∃ st1, outside_only st st1
         ∧ process_visa encoded_visa st
           = validate_and_persist encoded_visa key st1.
Proof.
  intros Hread Hkey. rewrite (process_visa_readable _ _ _ _ Hread).
  unfold key_for in Hkey.
  destruct (get_truthy (cache_lookup _ _ _)) eqn:Hc.
  - rewrite (resolve_public_key_hit _ _ _ Hc), Hkey. cbn [get_truthy].
    rewrite Hkey in Hc. cbn in Hc. rewrite Hc.
    exists st. split; [apply outside_only_refl|done].
  - rewrite (resolve_public_key_miss _ _ _ Hc).
    destruct (refresh_cronjob_pkey_cache _ _ _ _) as [[[pk|e] cache] w];
      [|done].
    destruct (get_truthy pk) eqn:Hpk; [|done]. subst pk.
    eexists. split; [|reflexivity].
    split; [done|]. by eexists.
Qed.

(** The three ways the loop body ends: the visa is dropped and the
    session is as before; the visa's row joins the user's collection and
    is committed; or the visa passed validation and the row could not be
    built from its claims, the one exception the body lets through. *)
Lemma process_visa_outcomes encoded_visa st :
  let r := process_visa encoded_visa st in
  (r.1 = Ok tt ∧ session r.2 = session st)
  ∨ (r.1 = Ok tt
     ∧ ∃ row,
         ga4gh_visas_v1 (user (session r.2))
         = ga4gh_visas_v1 (user (session st)) ++ [row]
         ∧ committed_visas (session r.2)
           = ga4gh_visas_v1 (user (session st)) ++ [row])
  ∨ (∃ e key decoded_visa,
       r.1 = Raise e
       ∧ validate_visa encoded_visa key = Ok decoded_visa
       ∧ visa_of_claims decoded_visa encoded_visa = Raise e).
Proof.
  cbv zeta.
  destruct (issuer_and_kid encoded_visa) as [[visa_issuer visa_kid]|e]
    eqn:Hread.
  2: { rewrite (process_visa_malformed _ _ _ Hread). by left. }
  rewrite (process_visa_readable _ _ _ _ Hread).
  pose proof (keeps_session_resolve_public_key visa_issuer visa_kid st)
    as [Hs _].
  destruct (resolve_public_key visa_issuer visa_kid st)
    as [[[public_key|]|e] st1] eqn:Hres; cbn [snd] in Hs.
  - destruct public_key as [key|]; cbn [get_truthy]; [|by left].
    destruct (json_truthy key); [|by left].
    rewrite validate_and_persist_spec.
    destruct (validate_visa encoded_visa key) as [dv|e] eqn:Hv; [|by left].
    destruct (visa_of_claims dv encoded_visa) as [row|e] eqn:Hrow.
    + right; left. split; [done|]. exists row. cbn. by rewrite Hs.
    + right; right. by exists e, key, dv.
  - by left.
  - exfalso. destruct (get_truthy (cache_lookup (pkey_cache st)
                                     visa_issuer visa_kid)) eqn:Hc.
    + by rewrite (resolve_public_key_hit _ _ _ Hc) in Hres.
    + rewrite (resolve_public_key_miss _ _ _ Hc) in Hres.
      by destruct (refresh_cronjob_pkey_cache _ _ _ _)
        as [[[pk|e'] cache] w].
Qed.

Lemma validate_visa_ok encoded_visa key decoded_visa :
  validate_visa encoded_visa key = Ok decoded_visa →
  validate_jwt encoded_visa key GA4GH_VISA_ISSUER_ALLOWLIST = Ok decoded_visa
  ∧ dict_has decoded_visa "sub" = true.
Proof.
  unfold validate_visa.
  destruct (validate_jwt _ _ _) as [dv|e]; cbn [result_bind]; [|done].
  destruct (dict_has dv "sub") eqn:Hsub; cbn [negb]; [|done].
  by intros [= <-].
Qed.

Lemma visa_of_claims_encoded decoded_visa encoded_visa row :
  visa_of_claims decoded_visa encoded_visa = Ok row →
  ga4gh_visa row = encoded_visa.
Proof.
  unfold visa_of_claims, result_bind.
  repeat match goal with
    | |- context [match ?r with Ok _ => _ | Raise _ => _ end] =>
        destruct r; [|done]
    end.
  by intros [= <-].
Qed.

(** The loop body adds to the user's collection at most one row, and only
    a validated one. *)
Lemma process_visa_rows encoded_visa st :
  ∃ rows,
    ga4gh_visas_v1 (user (session (process_visa encoded_visa st).2))
    = ga4gh_visas_v1 (user (session st)) ++ rows
    ∧ Forall validated_row rows.
Proof.
  destruct (issuer_and_kid encoded_visa) as [[visa_issuer visa_kid]|e]
    eqn:Hread.
  2: { rewrite (process_visa_malformed _ _ _ Hread).
       exists []. by rewrite app_nil_r. }
  rewrite (process_visa_readable _ _ _ _ Hread).
  pose proof (keeps_session_resolve_public_key visa_issuer visa_kid st)
    as [Hs _].
  destruct (resolve_public_key visa_issuer visa_kid st)
    as [[[public_key|]|e] st1]; cbn [snd] in Hs.
  - destruct public_key as [key|]; cbn [get_truthy];
      [|exists []; cbn; by rewrite Hs, app_nil_r].
    destruct (json_truthy key);
      [|exists []; cbn; by rewrite Hs, app_nil_r].
    rewrite validate_and_persist_spec.
    destruct (validate_visa encoded_visa key) as [dv|e] eqn:Hv;
      [|exists []; cbn; by rewrite Hs, app_nil_r].
    destruct (visa_of_claims dv encoded_visa) as [row|e] eqn:Hrow;
      [|exists []; cbn; by rewrite Hs, app_nil_r].
    exists [row]. cbn. rewrite Hs. split; [done|].
    apply Forall_singleton. exists key, dv.
    rewrite (visa_of_claims_encoded _ _ _ Hrow).
    destruct (validate_visa_ok _ _ _ Hv) as [Hjwt Hsub]. done.
  - exists []. cbn. by rewrite Hs, app_nil_r.
  - exists []. cbn. by rewrite Hs, app_nil_r.
Qed.

Lemma visa_loop_rows encoded_visas st :
  ∃ rows,
    ga4gh_visas_v1 (user (session (visa_loop encoded_visas st).2))
    = ga4gh_visas_v1 (user (session st)) ++ rows
    ∧ Forall validated_row rows.
Proof.
  revert st. induction encoded_visas as [|v rest IH]; intros st.
  - exists []. cbn. by rewrite app_nil_r.
  - cbn [visa_loop]. unfold mbind, M_bind, bind.
    destruct (process_visa_rows v st) as (rows1 & Hrows1 & Hval1).
    destruct (process_visa v st) as [[[]|e] st1]; cbn [snd] in Hrows1.
    + destruct (IH st1) as (rows2 & Hrows2 & Hval2).
      exists (rows1 ++ rows2). rewrite Hrows2, Hrows1, app_assoc.
      split; [done|]. by apply Forall_app.
    + by exists rows1.
Qed.

(** Whatever a call of the body does, the user's collection afterwards
    holds validated rows only. *)
Lemma update_user_visas_once_rows st :
  Forall validated_row
    (ga4gh_visas_v1 (user (session (update_user_visas_once st).2))).
Proof.
  rewrite update_user_visas_once_unfold.
  destruct (retrieve_visas (cleared st)) as [[batch|e] st1] eqn:Hret;
    destruct (retrieval_keeps_cleared _ _ _ Hret) as [Hvisas _].
  - destruct (visa_loop_rows batch st1) as (rows & -> & Hval).
    by rewrite Hvisas.
  - cbn. by rewrite Hvisas.
Qed.

(** What holds after every call holds after the decorated call. *)
Lemma backoff_on_exception_final {A} (P : State → Prop) tries_left
    (m : M A) :
  (∀ st, P (m st).2) → ∀ st, P (backoff_on_exception tries_left m st).2.
Proof.
  intros Hm. induction tries_left as [|n IH]; intros st;
    cbn [backoff_on_exception]; specialize (Hm st);
    destruct (m st) as [[a|e] st1]; try done;
    destruct (giveup e); done.
Qed.

(** After a sync, however it ends, every visa the user holds passed
    validation with a [sub] claim. *)
Lemma update_user_visas_rows st :
  Forall validated_row
    (ga4gh_visas_v1 (user (session (update_user_visas st).2))).
Proof.
  apply (backoff_on_exception_final
           (λ st', Forall validated_row
                     (ga4gh_visas_v1 (user (session st'))))).
  apply update_user_visas_once_rows.
Qed.

(** A response other than 200 from the user-info endpoint is not an
    exception: [get_userinfo] returns the empty dictionary. *)
Lemma get_userinfo_soft_failure token st issuer w1 access_token res w2 :
  get_value_from_discovery_doc "issuer" "" (world st) = (Ok issuer, w1) →
  dict_get token "access_token" = Some (JStr access_token) →
  requests_get (issuer +:+ RAS_USERINFO_ENDPOINT)
    [("Authorization", JStr ("Bearer " +:+ access_token))] w1
  = (Ok res, w2) →
  status_code res ≠ 200%Z →
  (get_userinfo token st).1 = Ok (JObj []).
Proof.
  intros Hiss Htok Hget Hstatus.
  unfold get_userinfo, mbind, M_bind, bind, call, lift, dict_item.
  rewrite Hiss. cbn [world]. rewrite Htok, Hget.
  apply Z.eqb_neq in Hstatus. by rewrite Hstatus.
Qed.

(** A call that returns is not repeated. *)
Lemma backoff_on_exception_returns {A} tries_left (m : M A) st a st' :
  m st = (Ok a, st') →
  backoff_on_exception tries_left m st = (Ok a, st').
Proof. intros Hm. destruct tries_left; cbn; by rewrite Hm. Qed.

(** C8. For a visa whose issuer and key id are read: when the cache holds
    a key for them, the visa is validated with that key and no key set is
    fetched; a key set is fetched only on a miss, and then once; and on a
    miss whose fetch raises or returns no key, the visa is dropped. *)
Theorem cached_key_used_without_fetch encoded_visa visa_issuer visa_kid st :
  issuer_and_kid encoded_visa = Ok (visa_issuer, visa_kid) →
  let cached := cache_lookup (pkey_cache st) visa_issuer visa_kid in
  let fetched :=
    refresh_cronjob_pkey_cache visa_issuer visa_kid
      (pkey_cache st) (world st) in
  let r := process_visa encoded_visa st in
  (∀ key, cached = Some key → json_truthy key = true →
     r = validate_and_persist encoded_visa key st
     ∧ key_fetches (trace r.2) = key_fetches (trace st)
     ∧ pkey_cache r.2 = pkey_cache st
     ∧ world r.2 = world st)
  ∧ (key_fetches (trace r.2) ≠ key_fetches (trace st) →
     get_truthy cached = false)
  ∧ (get_truthy cached = false →
     key_fetches (trace r.2)
     = key_fetches (trace st) ++ [(visa_issuer, visa_kid)])
  ∧ (get_truthy cached = false →
     (∀ e, fetched.1.1 = Raise e → r.1 = Ok tt ∧ session r.2 = session st)
     ∧ (∀ public_key, fetched.1.1 = Ok public_key →
          get_truthy public_key = false →
          r.1 = Ok tt ∧ session r.2 = session st)).
Proof.
  intros Hread. cbv zeta.
  rewrite (process_visa_readable _ _ _ _ Hread).
  assert (Hhit : ∀ key,
    cache_lookup (pkey_cache st) visa_issuer visa_kid = Some key →
    json_truthy key = true →
    match resolve_public_key visa_issuer visa_kid st with
    | (Ok (Some public_key), st1) =>
        if get_truthy public_key
        then match public_key with
             | Some key => validate_and_persist encoded_visa key st1
             | None => (Ok tt, st1)
             end
        else log (LogError "Could not get public key to validate visa") st1
    | (Ok None, st1) => (Ok tt, st1)
    | (Raise e, st1) => (Raise e, st1)
    end = validate_and_persist encoded_visa key st).
  { intros key Hc Hk. rewrite resolve_public_key_hit;
      rewrite Hc; cbn [get_truthy]; by rewrite ?Hk. }
  split; [|split; [|split]].
  - intros key Hc Hk. rewrite (Hhit key Hc Hk). split; [done|].
    apply validate_and_persist_no_fetch.
  - intros Hfetch.
    destruct (get_truthy (cache_lookup _ _ _)) eqn:Hc; [|done].
    exfalso. apply Hfetch.
    destruct (get_truthy_Some _ Hc) as (key & Hkey & Hk).
    rewrite (Hhit key Hkey Hk). apply validate_and_persist_no_fetch.
  - intros Hc. rewrite (resolve_public_key_miss _ _ _ Hc).
    destruct (refresh_cronjob_pkey_cache _ _ _ _) as [[[pk|e] cache] w].
    + destruct pk as [key|]; cbn [get_truthy].
      * destruct (json_truthy key).
        -- destruct (validate_and_persist_no_fetch encoded_visa key
             (mkState (session st) cache w (flask_g st)
                (trace st ++ [EvCall (KeySetFetch visa_issuer visa_kid)])))
             as [-> _].
           cbn. by rewrite key_fetches_app.
        -- cbn. by rewrite !key_fetches_app, app_nil_r.
      * cbn. by rewrite !key_fetches_app, app_nil_r.
    + cbn. by rewrite !key_fetches_app, app_nil_r.
  - intros Hc. rewrite (resolve_public_key_miss _ _ _ Hc).
    destruct (refresh_cronjob_pkey_cache _ _ _ _) as [[[pk|e] cache] w];
      cbn [fst]; (split; [intros e' [=] | intros pk' [=] Hpk]); try done.
    subst pk'. by rewrite Hpk.
Qed.

(** C7. A visa that passes [validate_jwt] with claims that have no [sub]
    is dropped: the loop body returns, the session (and so the user's
    visa collection and the database) is as before, and the reason is
    the last thing logged; and no sync leaves the user with a row of a
    visa whose validated claims never carry [sub]. *)
Theorem visa_without_sub_discarded encoded_visa visa_issuer visa_kid key
    decoded_visa st :
  issuer_and_kid encoded_visa = Ok (visa_issuer, visa_kid) →
  key_for (pkey_cache st) (world st) visa_issuer visa_kid = Some key →
  validate_jwt encoded_visa key GA4GH_VISA_ISSUER_ALLOWLIST
  = Ok decoded_visa →
  dict_has decoded_visa "sub" = false →
  let r := process_visa encoded_visa st in
  (r.1 = Ok tt
   ∧ session r.2 = session st
   ∧ last (trace r.2)
     = Some (EvLog (LogError ("Visa failed validation: " +:+
                              "Visa is missing the 'sub' claim." +:+
                              ". Discarding visa."))))
  ∧ ((∀ key' claims,
        validate_jwt encoded_visa key' GA4GH_VISA_ISSUER_ALLOWLIST
        = Ok claims →
        dict_has claims "sub" = false) →
     ∀ st0 row,
       row ∈ ga4gh_visas_v1 (user (session (update_user_visas st0).2)) →
       ga4gh_visa row ≠ encoded_visa).
Proof.
  intros Hread Hkey Hvalid Hsub. cbv zeta. split.
  - destruct (process_visa_with_key _ _ _ _ _ Hread Hkey)
      as (st1 & [Hsession _] & ->).
    rewrite validate_and_persist_spec. unfold validate_visa.
    rewrite Hvalid. cbn [result_bind]. rewrite Hsub. cbn.
    split; [done|]. split; [done|]. apply last_snoc.
  - intros Hnever st0 row Hrow Heq.
    pose proof (update_user_visas_rows st0) as Hall.
    rewrite Forall_forall in Hall.
    destruct (Hall row Hrow) as (key' & claims & Hjwt & Hhas & _).
    rewrite Heq in Hjwt. rewrite (Hnever _ _ Hjwt) in Hhas. done.
Qed.

(** C4. When the passport holds one visa without a readable issuer or key
    id and one visa that has a key, passes validation with a [sub] claim
    and yields a row, in either order, the sync returns from its first
    call of the body, and the user's visa collection is exactly that row,
    in the session and in the database. *)
Theorem malformed_visa_does_not_stop_valid_one st batch st1 bad good e
    visa_issuer visa_kid key decoded_visa row :
  retrieve_visas (cleared st) = (Ok batch, st1) →
  batch = [bad; good] ∨ batch = [good; bad] →
  issuer_and_kid bad = Raise e →
  issuer_and_kid good = Ok (visa_issuer, visa_kid) →
  key_for (pkey_cache st1) (world st1) visa_issuer visa_kid = Some key →
  validate_jwt good key GA4GH_VISA_ISSUER_ALLOWLIST = Ok decoded_visa →
  dict_has decoded_visa "sub" = true →
  visa_of_claims decoded_visa good = Ok row →
  ∃ st',
    update_user_visas st = (Ok tt, st')
    ∧ update_user_visas_once st = (Ok tt, st')
    ∧ ga4gh_visas_v1 (user (session st')) = [row]
    ∧ committed_visas (session st') = [row].
Proof.
  intros Hret Hbatch Hbad Hread Hkey Hvalid Hsub Hrow.
  destruct (retrieval_keeps_cleared _ _ _ Hret) as [Hvisas _].
  assert (Hgood : ∀ st2,
    pkey_cache st2 = pkey_cache st1 → world st2 = world st1 →
    session st2 = session st1 →
    ∃ st3, process_visa good st2 = (Ok tt, st3)
           ∧ ga4gh_visas_v1 (user (session st3)) = [row]
           ∧ committed_visas (session st3) = [row]).
  { intros st2 Hc Hw Hs. rewrite <- Hc, <- Hw in Hkey.
    destruct (process_visa_with_key _ _ _ _ _ Hread Hkey)
      as (st2' & [Hs' _] & ->).
    rewrite validate_and_persist_spec. unfold validate_visa.
    rewrite Hvalid. cbn [result_bind]. rewrite Hsub. cbn [negb].
    rewrite Hrow. eexists. split; [reflexivity|].
    cbn. by rewrite Hs', Hs, Hvisas. }
  assert (Honce : ∃ st',
    update_user_visas_once st = (Ok tt, st')
    ∧ ga4gh_visas_v1 (user (session st')) = [row]
    ∧ committed_visas (session st') = [row]).
  { rewrite update_user_visas_once_unfold, Hret.
    destruct Hbatch as [-> | ->]; cbn [visa_loop];
      unfold mbind, M_bind, bind.
    - rewrite (process_visa_malformed _ _ _ Hbad).
      destruct (Hgood (with_trace st1
        [EvLog (LogError ("Could not get issuer or kid from visa: " +:+
                          exn_msg e +:+ ". Discarding visa."))]))
        as (st3 & -> & Hv & Hc); try done.
      exists st3. by cbn.
    - destruct (Hgood st1) as (st3 & -> & Hv & Hc); try done.
      rewrite (process_visa_malformed _ _ _ Hbad).
      eexists. split; [reflexivity|]. by cbn. }
  destruct Honce as (st' & Honce & Hv & Hc).
  exists st'. split; [|done].
  by apply backoff_on_exception_returns.
Qed.

(** C9. When the retrievals succeed, [get_user_id] returns the first of
    the user info's [UserID], [userid], [preferred_username] and the ID
    token's [sub] that is present and non-empty, as the username; when
    none is, it returns the error dictionary. *)
Theorem get_user_id_precedence code st token keys userinfo claims st1 :
  fetch_identity code st = (Ok (token, keys, JObj userinfo, claims), st1) →
  (get_user_id code st).1
  = match first_present [ dict_get userinfo "UserID";
                          dict_get userinfo "userid";
                          dict_get userinfo "preferred_username";
                          dict_get claims "sub" ] with
    | Some username =>
        Ok [ ("username", username);
             ("email", default JNull (dict_get userinfo "email")) ]
    | None => Ok [ ("error", JStr "Can't get user's info") ]
    end.
Proof.
  intros Hfetch.
  unfold get_user_id, try_except, mbind, M_bind, bind. rewrite Hfetch.
  unfold name_user, choose_username. cbn [first_present].
  repeat match goal with
    | |- context [get_truthy ?c] =>
        let Hc := fresh "Hc" in
        destruct (get_truthy c) eqn:Hc;
        [ destruct c as [?|]; [|discriminate Hc];
          cbn [fmap option_fmap option_map]; cbn in Hc; rewrite Hc |]
    end; done.
Qed.

End RasOauth2Facts.

Lemma visas_cleared_first_and_empty_after_failed_sync_witness :
  ∃ e st',
    @update_user_visas (sample_ras_env scenario_down)
      (sample_state scenario_down ∅) = (Raise e, st')
    ∧ ga4gh_visas_v1 (user (session st')) = []
    ∧ committed_visas (session st') = [].
Proof.
  apply (proj2 (@visas_cleared_first_and_empty_after_failed_sync
                  (sample_ras_env scenario_down)
                  (sample_state scenario_down ∅))).
  vm_compute. reflexivity.
Defined.

Lemma get_user_id_precedence_witness :
  (@get_user_id (sample_ras_env (scenario_visas [] true)) "auth-code"
     (sample_state (scenario_visas [] true) ∅)).1
  = Ok [ ("username", JStr "jdoe"); ("email", JStr "jdoe@nih.gov") ].
Proof.
  refine (@get_user_id_precedence (sample_ras_env (scenario_visas [] true))
            "auth-code" (sample_state (scenario_visas [] true) ∅)
            _ _ userinfo_with_passport [("sub", JStr "b3a1-user")] _ _).
  reflexivity.
Defined.

Lemma malformed_visa_does_not_stop_valid_one_witness :
  ∃ st',
    @update_user_visas
      (sample_ras_env (scenario_visas ["not-a-jwt"; "visa.good"] true))
      (sample_state (scenario_visas ["not-a-jwt"; "visa.good"] true) ∅)
    = (Ok tt, st')
    ∧ @update_user_visas_once
        (sample_ras_env (scenario_visas ["not-a-jwt"; "visa.good"] true))
        (sample_state (scenario_visas ["not-a-jwt"; "visa.good"] true) ∅)
      = (Ok tt, st')
    ∧ ga4gh_visas_v1 (user (session st')) = [sample_row]
    ∧ committed_visas (session st') = [sample_row].
Proof.
  eapply (@malformed_visa_does_not_stop_valid_one
            (sample_ras_env (scenario_visas ["not-a-jwt"; "visa.good"] true))
            (sample_state (scenario_visas ["not-a-jwt"; "visa.good"] true) ∅)
            ["not-a-jwt"; "visa.good"] _ "not-a-jwt" "visa.good"
            (mkExn JWTError "Not enough segments")
            sample_issuer "kid-1" (JStr "-----BEGIN PUBLIC KEY----- kid-1")
            sample_visa_claims sample_row).
  - reflexivity.
  - left; reflexivity.
  - reflexivity.
  - reflexivity.
  - reflexivity.
  - reflexivity.
  - reflexivity.
  - reflexivity.
Defined.

(** The same passport in the other order. *)
Example valid_visa_before_malformed_one :
  (@update_user_visas
     (sample_ras_env (scenario_visas ["visa.good"; "not-a-jwt"] true))
     (sample_state (scenario_visas ["visa.good"; "not-a-jwt"] true) ∅)).1
  = Ok tt
  ∧ committed_visas (session (@update_user_visas
      (sample_ras_env (scenario_visas ["visa.good"; "not-a-jwt"] true))
      (sample_state (scenario_visas ["visa.good"; "not-a-jwt"] true) ∅)).2)
    = [sample_row].
Proof. split; reflexivity. Qed.

Lemma visa_without_sub_discarded_witness :
  (@process_visa (sample_ras_env (scenario_visas ["visa.nosub"] true))
     "visa.nosub" (sample_state (scenario_visas ["visa.nosub"] true) ∅)).1
  = Ok tt
  ∧ session (@process_visa (sample_ras_env (scenario_visas ["visa.nosub"] true))
      "visa.nosub" (sample_state (scenario_visas ["visa.nosub"] true) ∅)).2
    = sample_session.
Proof.
  pose proof (@visa_without_sub_discarded
    (sample_ras_env (scenario_visas ["visa.nosub"] true))
    "visa.nosub" sample_issuer "kid-1"
    (JStr "-----BEGIN PUBLIC KEY----- kid-1") sample_visa_claims_nosub
    (sample_state (scenario_visas ["visa.nosub"] true) ∅)
    eq_refl eq_refl eq_refl eq_refl) as [(Hret & Hsession & _) _].
  split; [exact Hret | exact Hsession].
Defined.

Lemma cached_key_used_without_fetch_witness :
  key_fetches (trace (@process_visa
    (sample_ras_env (scenario_visas ["visa.good"] true))
    "visa.good" (sample_state (scenario_visas ["visa.good"] true) warm_cache)).2)
  = [].
Proof.
  exact (proj1 (proj2 (proj1 (@cached_key_used_without_fetch
    (sample_ras_env (scenario_visas ["visa.good"] true))
    "visa.good" sample_issuer "kid-1"
    (sample_state (scenario_visas ["visa.good"] true) warm_cache) eq_refl)
    (JStr "-----BEGIN PUBLIC KEY----- kid-1") eq_refl eq_refl))).
Defined.

(** On a cold cache the same visa costs one fetch; with the key-set
    endpoint down, or for a key id the issuer does not publish, the visa
    is dropped and nothing is stored. *)
Example cold_cache_fetches_once :
  key_fetches (trace (@process_visa
    (sample_ras_env (scenario_visas ["visa.good"] true))
    "visa.good" (sample_state (scenario_visas ["visa.good"] true) ∅)).2)
  = [(sample_issuer, "kid-1")]
  ∧ session (@process_visa
      (sample_ras_env (scenario_visas ["visa.good"] false))
      "visa.good" (sample_state (scenario_visas ["visa.good"] false) ∅)).2
    = sample_session
  ∧ session (@process_visa
      (sample_ras_env (scenario_visas ["visa.otherkid"] true))
      "visa.otherkid"
      (sample_state (scenario_visas ["visa.otherkid"] true) ∅)).2
    = sample_session.
Proof. repeat split; reflexivity. Qed.

(** The same visa twice on a cold cache: the first validation fetches the
    issuer's key set and fills the cache, the second finds the key there;
    both rows are stored. *)
Example second_validation_hits_cache :
  key_fetches (trace (@visa_loop
    (sample_ras_env (scenario_visas [] true)) ["visa.good"; "visa.good"]
    (sample_state (scenario_visas [] true) ∅)).2)
  = [(sample_issuer, "kid-1")]
  ∧ length (committed_visas (session (@visa_loop
      (sample_ras_env (scenario_visas [] true)) ["visa.good"; "visa.good"]
      (sample_state (scenario_visas [] true) ∅)).2))
    = 3%nat.
Proof. split; reflexivity. Qed.

(** * Further properties *)

(** ** The access mapper, beyond the stated claims *)

Section RasSyncMore.
Context `{RasSyncEnv}.

Lemma clear_and_commit_twice s :
  commit (clear_visas (commit (clear_visas s))) = commit (clear_visas s).
Proof. done. Qed.

Lemma clear_and_commit_fixed s :
  commit (clear_visas s) = s
  ↔ ga4gh_visas_v1 (user s) = [] ∧ committed_visas s = [].
Proof.
  destruct s as [[em dn ph vs] cs]. cbn. split.
  - by intros [= -> ->].
  - by intros [-> ->].
Qed.

Lemma permission_loop_dom pcc (perms : list permission) acc :
  dom (permission_loop pcc perms acc).1
  = dom acc.1 ∪ list_to_set (full_phsid pcc <$> perms).
Proof.
  induction perms as [|q perms IH] using rev_ind.
  - cbn. by rewrite (right_id_L ∅ (∪)).
  - rewrite permission_loop_snoc. cbn [permission_step fst].
    rewrite dom_insert_L, IH, fmap_app, list_to_set_app_L. cbn.
    rewrite (right_id_L ∅ (∪)), (comm_L (∪) {[_]}). by rewrite (assoc_L (∪)).
Qed.

Lemma size_list_to_set_le (l : list string) :
  (size (list_to_set l : gset string) ≤ length l)%nat.
Proof.
  induction l as [|x l IH]; cbn.
  - by rewrite size_empty.
  - rewrite size_union_alt, size_singleton.
    assert (size (list_to_set l ∖ {[x]} : gset string)
            ≤ size (list_to_set l : gset string))%nat.
    { apply subseteq_size, subseteq_difference_l. done. }
    lia.
Qed.

Lemma app_empty_r (s : string) : s +:+ "" = s.
Proof.
  induction s as [|a s IH]; [done|].
  change (String a (s +:+ "") = String a s). by rewrite IH.
Qed.

(** X1. A visa that cannot be decoded grants nothing, whatever its
    [expires]: the project map and the tags are empty, and the user's visa
    collection is emptied and committed. *)
Theorem undecodable_visa_grants_nothing_and_clears s encoded_visa expires_at
    pcc :
  jwt_decode encoded_visa = None →
  let r := _parse_single_visa s encoded_visa expires_at pcc in
  r.1.1 = ∅
  ∧ tags r.1.2 = ∅
  ∧ r.2 = commit (clear_visas s)
  ∧ ga4gh_visas_v1 (user r.2) = []
  ∧ committed_visas r.2 = [].
Proof.
  intros Hdec. cbv zeta. unfold _parse_single_visa. rewrite Hdec.
  by destruct (Qlt_le_dec now (inject_Z expires_at)).
Qed.

(** X2. The call leaves the session exactly as it was when the visa
    decodes and has not expired, or when the user held no visa to begin
    with, and in no other case; it never changes the user's contact
    fields, which the returned summary carries with the empty string for
    a missing one. *)
Theorem session_untouched_iff_live_or_empty s encoded_visa expires_at pcc :
  let r := _parse_single_visa s encoded_visa expires_at pcc in
  (r.2 = s
   ↔ (is_Some (jwt_decode encoded_visa) ∧ (now < inject_Z expires_at)%Q)
     ∨ (ga4gh_visas_v1 (user s) = [] ∧ committed_visas s = []))
  ∧ email (user r.2) = email (user s)
  ∧ display_name (user r.2) = display_name (user s)
  ∧ phone_number (user r.2) = phone_number (user s)
  ∧ info_email r.1.2 = default "" (email (user s))
  ∧ info_display_name r.1.2 = default "" (display_name (user s))
  ∧ info_phone_number r.1.2 = default "" (phone_number (user s)).
Proof.
  assert (Hor : ∀ o, or_empty o = default "" o).
  { intros [[|a t]|]; done. }
  cbv zeta. unfold _parse_single_visa.
  destruct (jwt_decode encoded_visa) as [d|];
    destruct (Qlt_le_dec now (inject_Z expires_at)) as [Hlt|Hge];
    try destruct (permission_loop _ _ _) as [project tgs];
    cbn [fst snd tags info_email info_display_name info_phone_number];
    rewrite ?clear_and_commit_twice, ?Hor;
    (split; [|done]).
  - split; [|done]. intros _. left. split; [by eexists|done].
  - rewrite clear_and_commit_fixed. split; [by right|].
    intros [[_ Hlt]|Hempty]; [|done].
    exfalso. exact (Qlt_not_le _ _ Hlt Hge).
  - rewrite clear_and_commit_fixed. split; [by right|].
    intros [[[d Hd] _]|Hempty]; done.
  - rewrite clear_and_commit_fixed. split; [by right|].
    intros [[[d Hd] _]|Hempty]; done.
Qed.

(** X3. For a visa that decodes and has not expired, the keys of the
    project map are exactly the access keys of its permissions, so there
    are no more entries than permissions; a visa without the permissions
    claim, or with an empty list, gives an empty map and empty tags. *)
Theorem project_keys_are_permission_keys s encoded_visa expires_at pcc d :
  jwt_decode encoded_visa = Some d →
  (now < inject_Z expires_at)%Q →
  let perms := default [] (ras_dbgap_permissions d) in
  let r := _parse_single_visa s encoded_visa expires_at pcc in
  dom r.1.1 = list_to_set (full_phsid pcc <$> perms)
  ∧ (size r.1.1 ≤ length perms)%nat
  ∧ (perms = [] → r.1.1 = ∅ ∧ tags r.1.2 = ∅).
Proof.
  intros Hd Hlt. cbv zeta.
  rewrite (parse_single_visa_live _ _ _ _ _ Hd Hlt). cbn [fst snd tags].
  assert (Hdom : dom (permission_loop pcc (default [] (ras_dbgap_permissions d))
                        (∅, ∅)).1
                 = list_to_set
                     (full_phsid pcc <$> default [] (ras_dbgap_permissions d))).
  { rewrite permission_loop_dom. cbn [fst].
    by rewrite dom_empty_L, (left_id_L ∅ (∪)). }
  split; [done|]. split.
  - rewrite <- size_dom, Hdom.
    etrans; [apply size_list_to_set_le|]. by rewrite length_fmap.
  - by intros ->.
Qed.

(** X4. The project map does not depend on the order of the permissions
    nor on how often one is repeated: two visas, decodable and unexpired,
    whose permission lists hold the same entries give the same map. *)
Theorem project_independent_of_permission_order s s' v v' expires_at
    expires_at' pcc d d' :
  jwt_decode v = Some d →
  jwt_decode v' = Some d' →
  (now < inject_Z expires_at)%Q →
  (now < inject_Z expires_at')%Q →
  (∀ p, p ∈ default [] (ras_dbgap_permissions d)
        ↔ p ∈ default [] (ras_dbgap_permissions d')) →
  (_parse_single_visa s v expires_at pcc).1.1
  = (_parse_single_visa s' v' expires_at' pcc).1.1.
Proof.
  intros Hd Hd' Hlt Hlt' Hsame.
  rewrite (parse_single_visa_live _ _ _ _ _ Hd Hlt),
          (parse_single_visa_live _ _ _ _ _ Hd' Hlt').
  cbn [fst].
  assert (Hone : ∀ (l l' : list permission) k v0,
    (∀ p, p ∈ l → p ∈ l') →
    (permission_loop pcc l (∅, ∅)).1 !! k = Some v0 →
    (permission_loop pcc l' (∅, ∅)).1 !! k = Some v0).
  { intros l l' k v0 Hsub Hk.
    apply permission_loop_entry in Hk as [Hk|[-> (p & Hp & ->)]].
    - cbn in Hk. by rewrite lookup_empty in Hk.
    - by apply permission_loop_key, Hsub. }
  apply map_eq. intros k.
  destruct ((permission_loop pcc (default [] (ras_dbgap_permissions d))
               (∅, ∅)).1 !! k) as [v0|] eqn:Hk.
  - symmetry. eapply Hone; [|exact Hk]. intros p. apply Hsame.
  - destruct ((permission_loop pcc (default [] (ras_dbgap_permissions d'))
                 (∅, ∅)).1 !! k) as [v0|] eqn:Hk'; [|done].
    eapply Hone in Hk'; [|intros p; apply Hsame].
    by rewrite Hk in Hk'.
Qed.

(** X5. The access key with consent codes parsed is the plain key followed
    by a dot and the consent group when the group is present and
    non-empty, and the plain key otherwise; the two keys differ exactly
    when there is such a group, and the plain key is the [phs_id], empty
    when the permission has none. *)
Theorem consent_suffix_only_when_group_present (p : permission) :
  let consent_group := default "" (p !! "consent_group") in
  full_phsid false p = default "" (p !! "phs_id")
  ∧ full_phsid true p
    = full_phsid false p
      +:+ (if truthy consent_group then "." +:+ consent_group else "")
  ∧ (full_phsid true p = full_phsid false p ↔ truthy consent_group = false).
Proof.
  cbv zeta. unfold full_phsid. cbn [andb].
  destruct (truthy (default "" (p !! "consent_group"))) eqn:Hcg.
  - split; [done|]. split; [done|]. split; [|done].
    intros Heq. exfalso.
    rewrite <- (app_empty_r (default "" (p !! "phs_id"))) in Heq at 2.
    by apply (inj (String.app _)) in Heq.
  - split; [done|]. split; [by rewrite app_empty_r|done].
Qed.

End RasSyncMore.

Lemma undecodable_visa_grants_nothing_and_clears_witness :
  (@_parse_single_visa sample_sync_env sample_session
     "garbage" 1800000000 true).2
  = {| user := set_visas sample_user []; committed_visas := [] |}.
Proof.
  exact (proj1 (proj2 (proj2 (@undecodable_visa_grants_nothing_and_clears
    sample_sync_env sample_session "garbage" 1800000000 true eq_refl)))).
Defined.

Lemma project_keys_are_permission_keys_witness :
  dom (@_parse_single_visa sample_sync_env sample_session
         "ras.visa.token" 1700000001 true).1.1
  = {[ "phs000200.c1"; "phs000300.c2" ]}.
Proof.
  refine (eq_trans (proj1 (@project_keys_are_permission_keys sample_sync_env
    sample_session "ras.visa.token" 1700000001 true
    {| ras_dbgap_permissions := Some sample_permissions |} eq_refl _)) _).
  - reflexivity.
  - vm_compute. reflexivity.
Defined.

Lemma project_independent_of_permission_order_witness :
  (@_parse_single_visa sample_sync_env_reordered sample_session
     "ras.visa.token" 1700000001 true).1.1
  = (@_parse_single_visa sample_sync_env_reordered sample_session
       "ras.visa.reordered" 1700000009 true).1.1.
Proof.
  apply (@project_independent_of_permission_order sample_sync_env_reordered
           sample_session sample_session "ras.visa.token" "ras.visa.reordered"
           1700000001 1700000009 true
           {| ras_dbgap_permissions := Some sample_permissions |}
           {| ras_dbgap_permissions :=
                Some (reverse sample_permissions ++ sample_permissions) |}
           eq_refl eq_refl).
  - reflexivity.
  - reflexivity.
  - intros p. cbn [default from_option id ras_dbgap_permissions].
    rewrite elem_of_app, elem_of_reverse. tauto.
Defined.

(** ** The local token validator, beyond the stated claims *)

Section ValidatorMore.
Context `{ValidatorEnv}.

Lemma exn_eta e : mkExn (exn_cls e) (exn_msg e) = e.
Proof. by destruct e. Qed.

Lemma blacklisted_first_None blacklist (claim : option json) :
  blacklisted_first blacklist claim = None
  ↔ ∀ row, row ∈ blacklist → claim ≠ Some (JStr (jti row)).
Proof.
  unfold blacklisted_first. split.
  - intros Hnone row Hrow Heq. rewrite Heq in Hnone.
    apply list_elem_of_In in Hrow.
    apply (find_none _ _ Hnone) in Hrow.
    by rewrite String.eqb_refl in Hrow.
  - intros Hall. destruct claim as [[| | |j| |]|]; try done.
    destruct (find _ blacklist) as [row|] eqn:Hfind; [|done].
    apply find_some in Hfind as [Hin Heq].
    apply String.eqb_eq in Heq. apply list_elem_of_In in Hin.
    exfalso. apply (Hall row Hin). by rewrite Heq.
Qed.

(** X6. [validate_bearer_token] depends on the scopes only as a set: two
    scope lists with the same entries, in any order and however often
    repeated, give the same answer and the same effects. *)
Theorem bearer_result_depends_on_scope_set token scopes scopes' st :
  (∀ x, x ∈ scopes ↔ x ∈ scopes') →
  validate_bearer_token token scopes st
  = validate_bearer_token token scopes' st.
Proof.
  intros Hsame. unfold validate_bearer_token, bearer_audience.
  assert (Hset : (list_to_set scopes : gset string) = list_to_set scopes').
  { apply leibniz_equiv, set_equiv. intros x.
    by rewrite !elem_of_list_to_set. }
  by rewrite Hset.
Qed.

(** X7. What a call of [validate_bearer_token] can do. It returns [True]
    only for a non-empty token the library accepts, and then leaves the
    request's error message as it was; it returns [False] only after
    storing a reason on the request and logging it; and it raises only
    what the library raised, never the library's validation error, with
    the request and the log untouched. *)
Theorem validate_bearer_token_outcomes token scopes st :
  let r := validate_bearer_token token scopes st in
  match r.1 with
  | Ok true =>
      truthy token = true
      ∧ error_message r.2 = error_message st
      ∧ ∃ claims,
          validate_request_jwt (bearer_audience scopes) = Ok claims
          ∧ app_log r.2
            = app_log st ++ [LogInfoClaims "validated access token: " claims]
  | Ok false =>
      ∃ msg,
        error_message r.2 = Some msg
        ∧ app_log r.2 = app_log st ++ [LogException msg]
        ∧ ((truthy token = false ∧ msg = "No token provided.")
           ∨ (truthy token = true
              ∧ validate_request_jwt (bearer_audience scopes)
                = Raise (mkExn JWTValidationError msg)))
  | Raise e =>
      r.2 = st
      ∧ exn_cls e ≠ JWTValidationError
      ∧ validate_request_jwt (bearer_audience scopes) = Raise e
  end.
Proof.
  cbv zeta. unfold validate_bearer_token.
  destruct (truthy token); cbn [negb].
  2: { cbn. exists "No token provided.". split; [done|]. split; [done|].
       by left. }
  destruct (validate_request_jwt (bearer_audience scopes)) as [claims|e]
    eqn:Hlib.
  - cbn. split; [done|]. split; [done|]. by exists claims.
  - destruct (exn_cls e) eqn:Hcls; cbn; try (by rewrite Hcls).
    exists (exn_msg e). split; [done|]. split; [done|]. right.
    split; [done|]. by rewrite <- Hcls, exn_eta.
Qed.

(** X8. A refresh token is accepted only if it is non-empty, the library
    accepts it, its [jti] claim is present and non-empty, and no
    blacklisted row has that [jti]. *)
Theorem accepted_refresh_token_is_not_blacklisted blacklist refresh_token st :
  (validate_refresh_token blacklist refresh_token st).1 = Ok true →
  truthy refresh_token = true
  ∧ ∃ claims,
      auth_validate_jwt refresh_token default_public_key {[ "refresh" ]}
        HOST_NAME = Ok claims
      ∧ get_truthy (dict_get claims "jti") = true
      ∧ (∀ row, row ∈ blacklist →
           dict_get claims "jti" ≠ Some (JStr (jti row)))
      ∧ (validate_refresh_token blacklist refresh_token st).2
        = log_claims "validated refresh token: " claims st.
Proof.
  unfold validate_refresh_token.
  destruct (truthy refresh_token); cbn [negb]; [|done].
  destruct (auth_validate_jwt _ _ _ _) as [claims|e]; [|done].
  cbv zeta.
  destruct (get_truthy (dict_get claims "jti")) eqn:Hjti; cbn [negb]; [|done].
  destruct (blacklisted_first blacklist (dict_get claims "jti")) as [row|]
    eqn:Hbl; [done|].
  intros _. split; [done|]. exists claims.
  split; [done|]. split; [done|]. split; [|done].
  by apply blacklisted_first_None.
Qed.

(** X9. Revoking more tokens never admits one: a refresh token accepted
    against a blacklist is accepted, with the same effects, against any
    blacklist whose rows are among the first one's. *)
Theorem acceptance_survives_smaller_blacklist blacklist blacklist'
    refresh_token st :
  (∀ row, row ∈ blacklist → row ∈ blacklist') →
  (validate_refresh_token blacklist' refresh_token st).1 = Ok true →
  validate_refresh_token blacklist refresh_token st
  = validate_refresh_token blacklist' refresh_token st.
Proof.
  intros Hsub. unfold validate_refresh_token.
  destruct (truthy refresh_token); cbn [negb]; [|done].
  destruct (auth_validate_jwt _ _ _ _) as [claims|e]; [|done].
  cbv zeta.
  destruct (get_truthy (dict_get claims "jti")); cbn [negb]; [|done].
  destruct (blacklisted_first blacklist' (dict_get claims "jti")) as [row|]
    eqn:Hbl'; [done|].
  intros _.
  assert (Hbl : blacklisted_first blacklist (dict_get claims "jti") = None).
  { apply blacklisted_first_None. intros row Hrow.
    apply (proj1 (blacklisted_first_None _ _) Hbl'). by apply Hsub. }
  by rewrite Hbl.
Qed.

(** X10. [validate_refresh_token] raises exactly when the token is
    non-empty and the library raises, and then it raises the library's
    exception, its validation error included, without storing a reason
    on the request or logging anything. *)
Theorem refresh_token_library_errors_propagate blacklist refresh_token st e :
  (validate_refresh_token blacklist refresh_token st).1 = Raise e
  ↔ truthy refresh_token = true
    ∧ auth_validate_jwt refresh_token default_public_key {[ "refresh" ]}
        HOST_NAME = Raise e
    ∧ validate_refresh_token blacklist refresh_token st = (Raise e, st).
Proof.
  unfold validate_refresh_token.
  destruct (truthy refresh_token); cbn [negb].
  2: { split; [done|]. by intros [? _]. }
  destruct (auth_validate_jwt _ _ _ _) as [claims|e'].
  - cbv zeta. split; [|by intros (_ & ? & _)].
    destruct (negb _); [done|].
    by destruct (blacklisted_first _ _).
  - cbn. split.
    + by intros [= ->].
    + by intros (_ & [= ->] & _).
Qed.

End ValidatorMore.

Lemma bearer_result_depends_on_scope_set_witness :
  @validate_bearer_token (sample_validator_env ["access"; "data"])
    "eyJ.access.token" ["data"; "user"] fresh_request
  = @validate_bearer_token (sample_validator_env ["access"; "data"])
      "eyJ.access.token" ["user"; "data"; "user"] fresh_request.
Proof.
  apply (@bearer_result_depends_on_scope_set
           (sample_validator_env ["access"; "data"])).
  intros x. rewrite !elem_of_cons, !elem_of_nil. tauto.
Defined.

Lemma accepted_refresh_token_is_not_blacklisted_witness :
  Forall (λ row, JStr "0b1c2d3e-4f50" ≠ JStr (jti row)) sample_blacklist.
Proof.
  destruct (@accepted_refresh_token_is_not_blacklisted
              (sample_validator_env []) sample_blacklist "refresh.live"
              fresh_request eq_refl)
    as (_ & claims & Hlib & _ & Hnot & _).
  injection Hlib as <-.
  apply Forall_forall. intros row Hrow Heq.
  apply (Hnot row Hrow). cbn. by rewrite Heq.
Defined.

Lemma acceptance_survives_smaller_blacklist_witness :
  @validate_refresh_token (sample_validator_env []) [] "refresh.live"
    fresh_request
  = @validate_refresh_token (sample_validator_env []) sample_blacklist
      "refresh.live" fresh_request.
Proof.
  apply (@acceptance_survives_smaller_blacklist (sample_validator_env [])
           [] sample_blacklist "refresh.live" fresh_request).
  - intros row Hrow. by apply elem_of_nil in Hrow.
  - reflexivity.
Defined.

(** ** The federated client, beyond the stated claims *)

Section RasOauth2More.
Context `{RasEnv}.

Lemma world_only_refl st : world_only st st.
Proof. done. Qed.

Lemma world_only_trans st1 st2 st3 :
  world_only st1 st2 → world_only st2 st3 → world_only st1 st3.
Proof.
  intros (Hs1 & Hc1 & Hg1) (Hs2 & Hc2 & Hg2).
  split; [congruence|]. split; congruence.
Qed.

Lemma provider_only_ret {A} (a : A) : provider_only (mret a).
Proof. intros st. apply world_only_refl. Qed.

Lemma provider_only_raise {A} e : provider_only (raise (A := A) e).
Proof. intros st. apply world_only_refl. Qed.

Lemma provider_only_lift {A} (r : result A) : provider_only (lift r).
Proof. intros st. apply world_only_refl. Qed.

Lemma provider_only_log r : provider_only (log r).
Proof. intros st. done. Qed.

Lemma provider_only_call {A} c (f : World → result A * World) :
  provider_only (call c f).
Proof. intros st. unfold call. by destruct (f (world st)). Qed.

Lemma provider_only_bind {A B} (m : M A) (k : A → M B) :
  provider_only m → (∀ a, provider_only (k a)) → provider_only (m ≫= k).
Proof.
  intros Hm Hk st. unfold mbind, M_bind, bind.
  specialize (Hm st). destruct (m st) as [[a|e] st1]; [|done].
  eapply world_only_trans; [exact Hm|]. apply Hk.
Qed.

Lemma emits_only_ret {A} kind (a : A) : emits_only kind (mret a).
Proof. intros st. exists []. by rewrite app_nil_r. Qed.

Lemma emits_only_raise {A} kind e : emits_only kind (raise (A := A) e).
Proof. intros st. exists []. by rewrite app_nil_r. Qed.

Lemma emits_only_lift {A} kind (r : result A) : emits_only kind (lift r).
Proof. intros st. exists []. by rewrite app_nil_r. Qed.

Lemma emits_only_get_state kind : emits_only kind get_state.
Proof. intros st. exists []. by rewrite app_nil_r. Qed.

Lemma emits_only_emit (kind : event → bool) ev :
  kind ev = true → emits_only kind (emit ev).
Proof. intros Hev st. exists [ev]. split; [done|]. by apply Forall_singleton. Qed.

Lemma emits_only_log (kind : event → bool) r :
  kind (EvLog r) = true → emits_only kind (log r).
Proof. apply emits_only_emit. Qed.

Lemma emits_only_call {A} (kind : event → bool) c
    (f : World → result A * World) :
  kind (EvCall c) = true → emits_only kind (call c f).
Proof.
  intros Hev st. unfold call. destruct (f (world st)) as [r w].
  exists [EvCall c]. split; [done|]. by apply Forall_singleton.
Qed.

Lemma emits_only_call_cached {A} (kind : event → bool) c
    (f : pkey_cache_t → World → result A * pkey_cache_t * World) :
  kind (EvCall c) = true → emits_only kind (call_cached c f).
Proof.
  intros Hev st. unfold call_cached.
  destruct (f (pkey_cache st) (world st)) as [[r cache] w].
  exists [EvCall c]. split; [done|]. by apply Forall_singleton.
Qed.

Lemma emits_only_on_session (kind : event → bool) f ev :
  kind ev = true → emits_only kind (on_session f ev).
Proof. intros Hev st. exists [ev]. split; [done|]. by apply Forall_singleton. Qed.

Lemma emits_only_bind {A B} kind (m : M A) (k : A → M B) :
  emits_only kind m → (∀ a, emits_only kind (k a)) →
  emits_only kind (m ≫= k).
Proof.
  intros Hm Hk st. unfold mbind, M_bind, bind.
  destruct (Hm st) as (evs1 & Ht1 & Hk1).
  destruct (m st) as [[a|e] st1]; cbn [snd] in Ht1; [|by exists evs1].
  destruct (Hk a st1) as (evs2 & Ht2 & Hk2).
  exists (evs1 ++ evs2). rewrite Ht2, Ht1, app_assoc.
  split; [done|]. by apply Forall_app.
Qed.

Lemma emits_only_try_except {A} kind (m : M A) (h : exn → M A) :
  emits_only kind m → (∀ e, emits_only kind (h e)) →
  emits_only kind (try_except m h).
Proof.
  intros Hm Hh st. unfold try_except.
  destruct (Hm st) as (evs1 & Ht1 & Hk1).
  destruct (m st) as [[a|e] st1]; cbn [snd] in Ht1; [by exists evs1|].
  destruct (Hh e st1) as (evs2 & Ht2 & Hk2).
  exists (evs1 ++ evs2). rewrite Ht2, Ht1, app_assoc.
  split; [done|]. by apply Forall_app.
Qed.

Lemma emits_only_weaken {A} (kind kind' : event → bool) (m : M A) :
  (∀ ev, kind ev = true → kind' ev = true) →
  emits_only kind m → emits_only kind' m.
Proof.
  intros Hsub Hm st. destruct (Hm st) as (evs & Ht & Hk).
  exists evs. split; [done|]. eapply Forall_impl; [exact Hk|]. apply Hsub.
Qed.

(** Closes a [provider_only] or [emits_only] goal over a computation built
    from the steps above; an event's kind is decided by computation. *)
Ltac step_quiet :=
  repeat lazymatch goal with
    | |- provider_only (mret _) => apply provider_only_ret
    | |- provider_only (raise _) => apply provider_only_raise
    | |- provider_only (lift _) => apply provider_only_lift
    | |- provider_only (log _) => apply provider_only_log
    | |- provider_only (call _ _) => apply provider_only_call
    | |- provider_only (mbind _ _) => apply provider_only_bind
    | |- provider_only (if ?b then _ else _) => destruct b
    | |- provider_only (match ?x with _ => _ end) => destruct x
    | |- emits_only _ (mret _) => apply emits_only_ret
    | |- emits_only _ (raise _) => apply emits_only_raise
    | |- emits_only _ (lift _) => apply emits_only_lift
    | |- emits_only _ get_state => apply emits_only_get_state
    | |- emits_only _ (log _) => apply emits_only_log; reflexivity
    | |- emits_only _ (call _ _) => apply emits_only_call; reflexivity
    | |- emits_only _ (call_cached _ _) =>
        apply emits_only_call_cached; reflexivity
    | |- emits_only _ (on_session _ _) =>
        apply emits_only_on_session; reflexivity
    | |- emits_only _ (mbind _ _) => apply emits_only_bind
    | |- emits_only _ (try_except _ _) => apply emits_only_try_except
    | |- emits_only _ (if ?b then _ else _) => destruct b
    | |- emits_only _ (match ?x with _ => _ end) => destruct x
    | |- ∀ _, _ => intro
    end.

Lemma provider_only_get_userinfo token : provider_only (get_userinfo token).
Proof. unfold get_userinfo. step_quiet. Qed.

Lemma provider_only_fetch_identity code : provider_only (fetch_identity code).
Proof.
  unfold fetch_identity. step_quiet. apply provider_only_get_userinfo.
Qed.

Lemma emits_only_get_userinfo token :
  emits_only call_or_log (get_userinfo token).
Proof. unfold get_userinfo. step_quiet. Qed.

Lemma emits_only_retrieve_visas : emits_only call_or_log retrieve_visas.
Proof.
  unfold retrieve_visas. step_quiet.
  - apply emits_only_get_userinfo.
  - unfold get_encoded_visas_v11_userinfo. step_quiet.
Qed.

(** X11. Without a string under [access_token] in the token response,
    [get_userinfo] raises before any request to the user-info endpoint
    is made: the only call is the look-up of the issuer in the discovery
    document, and a missing key gives [KeyError]. *)
Theorem get_userinfo_without_bearer_sends_nothing token st :
  (∀ s, dict_get token "access_token" ≠ Some (JStr s)) →
  let r := get_userinfo token st in
  (∃ e, r.1 = Raise e)
  ∧ trace r.2 = trace st ++ [EvCall (DiscoveryDoc "issuer")]
  ∧ world_only st r.2
  ∧ (dict_get token "access_token" = None →
     ∀ issuer w,
       get_value_from_discovery_doc "issuer" "" (world st) = (Ok issuer, w) →
       r.1 = Raise (mkExn KeyError "access_token")).
Proof.
  intros Hnot. cbv zeta.
  unfold get_userinfo, mbind, M_bind, bind, call, lift, dict_item.
  destruct (get_value_from_discovery_doc "issuer" "" (world st))
    as [[issuer|e] w] eqn:Hiss; cbn.
  2: { split; [by exists e|]. split; [done|]. split; [done|].
       by intros _ issuer w' [=]. }
  destruct (dict_get token "access_token") as [v|] eqn:Htok.
  - destruct v as [| | |s| |]; cbn;
      try (split; [by eexists|]; split; [done|]; split; done).
    by destruct (Hnot s).
  - cbn. split; [by eexists|]. split; [done|]. split; done.
Qed.

(** [get_userinfo] on a response whose status is not 200. *)
Lemma get_userinfo_error_status token st issuer w1 access_token res w2 :
  get_value_from_discovery_doc "issuer" "" (world st) = (Ok issuer, w1) →
  dict_get token "access_token" = Some (JStr access_token) →
  requests_get (issuer +:+ RAS_USERINFO_ENDPOINT)
    [("Authorization", JStr ("Bearer " +:+ access_token))] w1
  = (Ok res, w2) →
  status_code res ≠ 200%Z →
  get_userinfo token st
  = (Ok (JObj []),
     mkState (session st) (pkey_cache st) w2 (flask_g st)
       (((trace st ++ [EvCall (DiscoveryDoc "issuer")])
         ++ [EvCall (UserInfoEndpoint (issuer +:+ RAS_USERINFO_ENDPOINT))])
        ++ [EvLog (LogError "Unable to get visa")])).
Proof.
  intros Hiss Htok Hget Hstatus.
  unfold get_userinfo, mbind, M_bind, bind, call, lift, dict_item.
  rewrite Hiss. cbn [world]. rewrite Htok, Hget.
  apply Z.eqb_neq in Hstatus. by rewrite Hstatus.
Qed.

(** X12. A response from the user-info endpoint whose status is not 200
    is not an exception: [get_userinfo] logs an error and returns the
    empty dictionary, whatever the response body holds, and touches
    neither the session, the key cache nor [flask.g]. *)
Theorem userinfo_error_status_gives_empty_dict token st issuer w1
    access_token res w2 :
  get_value_from_discovery_doc "issuer" "" (world st) = (Ok issuer, w1) →
  dict_get token "access_token" = Some (JStr access_token) →
  requests_get (issuer +:+ RAS_USERINFO_ENDPOINT)
    [("Authorization", JStr ("Bearer " +:+ access_token))] w1
  = (Ok res, w2) →
  status_code res ≠ 200%Z →
  let r := get_userinfo token st in
  r.1 = Ok (JObj [])
  ∧ world_only st r.2
  ∧ world r.2 = w2
  ∧ trace r.2
    = trace st ++ [ EvCall (DiscoveryDoc "issuer");
                    EvCall (UserInfoEndpoint
                              (issuer +:+ RAS_USERINFO_ENDPOINT));
                    EvLog (LogError "Unable to get visa") ].
Proof.
  intros Hiss Htok Hget Hstatus. cbv zeta.
  rewrite (get_userinfo_error_status _ _ _ _ _ _ _ Hiss Htok Hget Hstatus).
  cbn. split; [done|]. split; [done|]. split; [done|].
  by rewrite <- !app_assoc.
Qed.

(** X13. When the user-info endpoint answers with a status other than 200
    and the passport unpacker returns no visa for an absent passport, the
    sync is not an error and is not retried: [update_user_visas] returns
    after one call of its body and the user is left without any visa, in
    the session and in the database. *)
Theorem userinfo_error_status_empties_visas_silently st token_endpoint w1
    token w2 issuer w3 access_token res w4 cache w5 :
  get_value_from_discovery_doc "token_endpoint" "" (world st)
  = (Ok token_endpoint, w1) →
  get_access_token (set_visas (user (session st)) []) token_endpoint w1
  = (Ok token, w2) →
  get_value_from_discovery_doc "issuer" "" w2 = (Ok issuer, w3) →
  dict_get token "access_token" = Some (JStr access_token) →
  requests_get (issuer +:+ RAS_USERINFO_ENDPOINT)
    [("Authorization", JStr ("Bearer " +:+ access_token))] w3
  = (Ok res, w4) →
  status_code res ≠ 200%Z →
  get_unvalidated_visas_from_valid_passport None (pkey_cache st) w4
  = (Ok [], cache, w5) →
  ∃ st',
    update_user_visas st = (Ok tt, st')
    ∧ update_user_visas_once st = (Ok tt, st')
    ∧ ga4gh_visas_v1 (user (session st')) = []
    ∧ committed_visas (session st') = [].
Proof.
  intros Hte Htok Hiss Hat Hget Hstatus Hunpack.
  assert (Hret : ∃ st1, retrieve_visas (cleared st) = (Ok [], st1)
                        ∧ session st1 = session (cleared st)).
  { unfold retrieve_visas, mbind, M_bind, bind.
    unfold call at 1. cbn [cleared world snd].
    change (world (cleared st)) with (world st).
    unfold cleared, mbind, M_bind, bind, set_visas_empty, db_commit,
      on_session. cbn [world fst snd]. rewrite Hte.
    unfold get_state. cbn [session user]. unfold call at 1.
    cbn [world session user clear_visas commit]. rewrite Htok.
    erewrite get_userinfo_error_status;
      [|exact Hiss|exact Hat|exact Hget|exact Hstatus].
    unfold get_encoded_visas_v11_userinfo, mbind, M_bind, bind, lift,
      call_cached. cbn [py_get dict_get find fmap option_fmap option_map
                        pkey_cache world].
    rewrite Hunpack. eexists. split; [reflexivity|done]. }
  destruct Hret as (st1 & Hret & Hs).
  assert (Honce : update_user_visas_once st = (Ok tt, st1)).
  { by rewrite update_user_visas_once_unfold, Hret. }
  exists st1. split; [by apply backoff_on_exception_returns|].
  split; [done|]. by rewrite Hs.
Qed.

Lemma choose_username_truthy userinfo claims field_name username :
  choose_username userinfo claims = Some (field_name, username) →
  json_truthy username = true.
Proof.
  unfold choose_username.
  repeat match goal with
    | |- context [get_truthy ?c] =>
        let Hc := fresh "Hc" in
        destruct (get_truthy c) eqn:Hc;
        [ destruct c as [?|]; [|discriminate Hc];
          cbn [fmap option_fmap option_map]; cbn in Hc;
          by intros [= _ <-] |]
    end.
  done.
Qed.

(** [get_user_id] after its retrievals: the error dictionary with the
    state the retrievals left, or the user dictionary with [flask.g]
    written. *)
Lemma name_user_cases token keys userinfo claims st :
  let r := name_user token keys userinfo claims st in
  (∃ e, r.1 = Raise e ∧ r.2 = st)
  ∨ (r.1 = Ok [("error", JStr err_msg)] ∧ world_only st r.2)
  ∨ (∃ username,
       r.1 = Ok [("username", username);
                 ("email", default JNull
                             (match userinfo with
                              | JObj d => dict_get d "email"
                              | _ => None
                              end))]
       ∧ json_truthy username = true
       ∧ session r.2 = session st
       ∧ pkey_cache r.2 = pkey_cache st
       ∧ flask_g r.2
         = Some {| g_userinfo := userinfo; g_tokens := token;
                   g_keys := keys |}).
Proof.
  cbv zeta. unfold name_user.
  destruct userinfo as [| | | | |d]; try (left; by eexists).
  destruct (choose_username d claims) as [[field_name username]|] eqn:Hch.
  - rewrite (choose_username_truthy _ _ _ _ Hch). cbn [negb].
    right; right. exists username.
    by rewrite (choose_username_truthy _ _ _ _ Hch).
  - right; left. done.
Qed.

(** X14. [get_user_id] never raises: whatever the provider, the token
    library or the documents do, it returns either the error dictionary
    or a dictionary with a [username] and an [email], and the username is
    never empty. *)
Theorem get_user_id_never_raises code st :
  ∃ d, (get_user_id code st).1 = Ok d
       ∧ (d = [("error", JStr "Can't get user's info")]
          ∨ ∃ username email_claim,
              d = [("username", username); ("email", email_claim)]
              ∧ json_truthy username = true).
Proof.
  unfold get_user_id, try_except, mbind, M_bind, bind.
  destruct (fetch_identity code st) as [[[[[token keys] userinfo] claims]|e] st1].
  - destruct (name_user_cases token keys userinfo claims st1)
      as [(e & Hr & _)|[[Hr _]|(username & Hr & Htruthy & _)]];
      destruct (name_user token keys userinfo claims st1) as [[d|e'] st2];
      cbn [fst] in Hr; simplify_eq; cbn.
    + eexists. split; [done|]. by left.
    + eexists. split; [done|]. by left.
    + eexists. split; [done|]. right. by eexists _, _.
  - cbn. eexists. split; [done|]. by left.
Qed.

(** X15. [get_user_id] never touches the session or the key cache, and it
    writes [flask.g] only when it returns a username: an error leaves
    [flask.g] as it was, a success leaves there the user-info document,
    the token response and the keys it fetched. *)
Theorem get_user_id_writes_flask_g_only_on_success code st :
  let r := get_user_id code st in
  session r.2 = session st
  ∧ pkey_cache r.2 = pkey_cache st
  ∧ (r.1 = Ok [("error", JStr "Can't get user's info")] →
     flask_g r.2 = flask_g st)
  ∧ (∀ username email_claim,
       r.1 = Ok [("username", username); ("email", email_claim)] →
       ∃ token keys userinfo claims st1,
         fetch_identity code st = (Ok (token, keys, userinfo, claims), st1)
         ∧ flask_g r.2
           = Some {| g_userinfo := userinfo; g_tokens := token;
                     g_keys := keys |}).
Proof.
  cbv zeta. unfold get_user_id, try_except, mbind, M_bind, bind.
  pose proof (provider_only_fetch_identity code st) as (Hs & Hc & Hg).
  destruct (fetch_identity code st)
    as [[[[[token keys] userinfo] claims]|e] st1]; cbn [snd] in Hs, Hc, Hg.
  - destruct (name_user_cases token keys userinfo claims st1)
      as [(e & Hr & Hst)|[[Hr (Hs2 & Hc2 & Hg2)]
                         |(username & Hr & _ & Hs2 & Hc2 & Hg2)]];
      destruct (name_user token keys userinfo claims st1) as [[d|e'] st2];
      cbn [fst snd] in *; simplify_eq; cbn.
    + repeat split; try congruence; done.
    + repeat split; try congruence; done.
    + split; [congruence|]. split; [congruence|]. split; [done|].
      intros u em _. by eexists _, _, _, _, _.
  - cbn. repeat split; try congruence; done.
Qed.

(** X16. The loop over a concatenation is the loop over the first list
    followed by the loop over the second; so an exception in the first
    part is the result, and the second part is never looked at. *)
Theorem visa_loop_app batch1 batch2 st :
  visa_loop (batch1 ++ batch2) st
  = (visa_loop batch1 ;; visa_loop batch2) st
  ∧ (∀ e st1, visa_loop batch1 st = (Raise e, st1) →
              visa_loop (batch1 ++ batch2) st = (Raise e, st1)).
Proof.
  assert (Happ : ∀ st0, visa_loop (batch1 ++ batch2) st0
                        = (visa_loop batch1 ;; visa_loop batch2) st0).
  { induction batch1 as [|v rest IH]; intros st0.
    - cbn. unfold mbind, M_bind, bind. cbn. done.
    - cbn [app visa_loop]. unfold mbind, M_bind, bind.
      destruct (process_visa v st0) as [[[]|e] st1]; [|done].
      rewrite IH. unfold mbind, M_bind, bind. done. }
  split; [apply Happ|].
  intros e st1 Hraise. rewrite Happ.
  unfold mbind, M_bind, bind. by rewrite Hraise.
Qed.

(** The three ways the loop body ends, with the session each leaves. *)
Lemma process_visa_cases encoded_visa st :
  (∃ st', process_visa encoded_visa st = (Ok tt, st')
          ∧ session st' = session st)
  ∨ (∃ key decoded_visa row st',
       process_visa encoded_visa st = (Ok tt, st')
       ∧ validate_visa encoded_visa key = Ok decoded_visa
       ∧ visa_of_claims decoded_visa encoded_visa = Ok row
       ∧ session st' = stored row (session st))
  ∨ (∃ key decoded_visa e st',
       process_visa encoded_visa st = (Raise e, st')
       ∧ validate_visa encoded_visa key = Ok decoded_visa
       ∧ visa_of_claims decoded_visa encoded_visa = Raise e
       ∧ session st' = session st).
Proof.
  destruct (issuer_and_kid encoded_visa) as [[visa_issuer visa_kid]|e]
    eqn:Hread.
  2: { rewrite (process_visa_malformed _ _ _ Hread). left. by eexists. }
  rewrite (process_visa_readable _ _ _ _ Hread).
  pose proof (keeps_session_resolve_public_key visa_issuer visa_kid st)
    as [Hs _].
  destruct (resolve_public_key visa_issuer visa_kid st)
    as [[[public_key|]|e] st1] eqn:Hres; cbn [snd] in Hs.
  - destruct public_key as [key|]; cbn [get_truthy];
      [|left; by eexists].
    destruct (json_truthy key); [|left; by eexists].
    rewrite validate_and_persist_spec.
    destruct (validate_visa encoded_visa key) as [dv|e] eqn:Hv;
      [|left; by eexists].
    destruct (visa_of_claims dv encoded_visa) as [row|e] eqn:Hrow.
    + right; left. eexists key, dv, row, _. split; [done|].
      split; [done|]. split; [done|]. cbn. by rewrite Hs.
    + right; right. by eexists key, dv, e, _.
  - left. by eexists.
  - exfalso. destruct (get_truthy (cache_lookup (pkey_cache st)
                                     visa_issuer visa_kid)) eqn:Hc.
    + by rewrite (resolve_public_key_hit _ _ _ Hc) in Hres.
    + rewrite (resolve_public_key_miss _ _ _ Hc) in Hres.
      by destruct (refresh_cronjob_pkey_cache _ _ _ _)
        as [[[pk|e'] cache] w].
Qed.

(** What the loop adds to the user's collection: rows of visas of the
    batch, in the order of the batch, each one validated. *)
Lemma visa_loop_stored batch st :
  ∃ rows,
    ga4gh_visas_v1 (user (session (visa_loop batch st).2))
    = ga4gh_visas_v1 (user (session st)) ++ rows
    ∧ (ga4gh_visa <$> rows) `sublist_of` batch
    ∧ (committed_visas (session st) = ga4gh_visas_v1 (user (session st)) →
       committed_visas (session (visa_loop batch st).2)
       = ga4gh_visas_v1 (user (session (visa_loop batch st).2))).
Proof.
  revert st. induction batch as [|v rest IH]; intros st.
  - exists []. cbn. rewrite app_nil_r. done.
  - cbn [visa_loop]. unfold mbind, M_bind, bind.
    destruct (process_visa_cases v st)
      as [(st1 & -> & Hs)
         |[(key & dv & row & st1 & -> & Hv & Hrow & Hs)
          |(key & dv & e & st1 & -> & Hv & Hrow & Hs)]].
    + destruct (IH st1) as (rows & Hrows & Hsub & Hagree).
      exists rows. split; [by rewrite Hrows, Hs|].
      split; [by apply sublist_cons|].
      intros Hag. apply Hagree. by rewrite Hs.
    + destruct (IH st1) as (rows & Hrows & Hsub & Hagree).
      exists (row :: rows). split; [|split].
      * rewrite Hrows, Hs. cbn. by rewrite <- app_assoc.
      * cbn. rewrite (visa_of_claims_encoded _ _ _ Hrow).
        by apply sublist_skip.
      * intros _. apply Hagree. by rewrite Hs.
    + exists []. cbn. rewrite Hs, app_nil_r. split; [done|].
      split; [apply sublist_nil_l|done].
Qed.

(** X17. After a sync, however it ends, the database holds for the user
    exactly the visas the session holds: every added row is committed
    before the next visa is looked at, so an exception later in the
    batch leaves no row behind that is in the session only. *)
Theorem session_and_database_agree_after_sync st :
  committed_visas (session (update_user_visas st).2)
  = ga4gh_visas_v1 (user (session (update_user_visas st).2))
  ∧ (∀ batch st0,
       committed_visas (session st0) = ga4gh_visas_v1 (user (session st0)) →
       committed_visas (session (visa_loop batch st0).2)
       = ga4gh_visas_v1 (user (session (visa_loop batch st0).2))).
Proof.
  split.
  - apply (backoff_on_exception_final
             (λ st', committed_visas (session st')
                     = ga4gh_visas_v1 (user (session st')))).
    intros st0. rewrite update_user_visas_once_unfold.
    destruct (retrieve_visas (cleared st0)) as [[batch|e] st1] eqn:Hret;
      destruct (retrieval_keeps_cleared _ _ _ Hret) as [Hvisas Hcommitted].
    + destruct (visa_loop_stored batch st1) as (rows & _ & _ & Hagree).
      apply Hagree. by rewrite Hvisas, Hcommitted.
    + cbn. by rewrite Hvisas, Hcommitted.
  - intros batch st0 Hag.
    destruct (visa_loop_stored batch st0) as (rows & _ & _ & Hagree).
    by apply Hagree.
Qed.

(** X18. The visas a call of the body stores are visas of the retrieved
    passport, in the passport's order, each at most once per occurrence:
    the encoded forms of the user's rows afterwards are a subsequence of
    the batch, so there are no more rows than visas. *)
Theorem stored_visas_are_a_subsequence_of_the_passport st batch st1 :
  retrieve_visas (cleared st) = (Ok batch, st1) →
  let rows := ga4gh_visas_v1 (user (session (update_user_visas_once st).2)) in
  (ga4gh_visa <$> rows) `sublist_of` batch
  ∧ (length rows ≤ length batch)%nat.
Proof.
  intros Hret. cbv zeta.
  rewrite update_user_visas_once_unfold, Hret.
  destruct (retrieval_keeps_cleared _ _ _ Hret) as [Hvisas _].
  destruct (visa_loop_stored batch st1) as (rows & -> & Hsub & _).
  rewrite Hvisas. cbn [app]. split; [done|].
  apply sublist_length in Hsub. by rewrite length_fmap in Hsub.
Qed.

(** A loop whose visas all fail validation returns and leaves the
    session as it was. *)
Lemma visa_loop_all_rejected batch st :
  (∀ v key, v ∈ batch → ∃ e, validate_visa v key = Raise e) →
  ∃ st', visa_loop batch st = (Ok tt, st') ∧ session st' = session st.
Proof.
  revert st. induction batch as [|v rest IH]; intros st Hall.
  - by exists st.
  - cbn [visa_loop]. unfold mbind, M_bind, bind.
    destruct (process_visa_cases v st)
      as [(st1 & -> & Hs)
         |[(key & dv & row & st1 & _ & Hv & _)
          |(key & dv & e & st1 & _ & Hv & _)]].
    + destruct (IH st1) as (st2 & -> & Hs2).
      { intros v' key Hv'. apply Hall. rewrite elem_of_cons; by right. }
      exists st2. split; [done|]. congruence.
    + destruct (Hall v key) as [e He]; [rewrite elem_of_cons; by left|].
      by rewrite He in Hv.
    + destruct (Hall v key) as [e' He]; [rewrite elem_of_cons; by left|].
      by rewrite He in Hv.
Qed.

(** X19. A passport whose visas all fail validation is not an error: the
    sync returns after one call of its body, and the user is left
    without any visa, in the session and in the database. *)
Theorem sync_with_only_rejected_visas_returns_empty st batch st1 :
  retrieve_visas (cleared st) = (Ok batch, st1) →
  (∀ v key, v ∈ batch → ∃ e, validate_visa v key = Raise e) →
  ∃ st',
    update_user_visas st = (Ok tt, st')
    ∧ update_user_visas_once st = (Ok tt, st')
    ∧ ga4gh_visas_v1 (user (session st')) = []
    ∧ committed_visas (session st') = [].
Proof.
  intros Hret Hall.
  destruct (retrieval_keeps_cleared _ _ _ Hret) as [Hvisas Hcommitted].
  destruct (visa_loop_all_rejected batch st1 Hall) as (st' & Hloop & Hs).
  assert (Honce : update_user_visas_once st = (Ok tt, st')).
  { by rewrite update_user_visas_once_unfold, Hret. }
  exists st'. split; [by apply backoff_on_exception_returns|].
  split; [done|]. by rewrite Hs.
Qed.

(** The loop raises only what building a row raised. *)
Lemma visa_loop_raise batch st e st' :
  visa_loop batch st = (Raise e, st') →
  ∃ v key decoded_visa,
    v ∈ batch
    ∧ validate_visa v key = Ok decoded_visa
    ∧ visa_of_claims decoded_visa v = Raise e.
Proof.
  revert st. induction batch as [|v rest IH]; intros st; [done|].
  cbn [visa_loop]. unfold mbind, M_bind, bind.
  destruct (process_visa_cases v st)
    as [(st1 & -> & _)
       |[(key & dv & row & st1 & -> & _)
        |(key & dv & e' & st1 & -> & Hv & Hrow & _)]].
  - intros Hrest. destruct (IH _ Hrest) as (v' & key & dv & Hin & Hrest').
    exists v', key, dv. split; [rewrite elem_of_cons; by right|done].
  - intros Hrest. destruct (IH _ Hrest) as (v' & key' & dv' & Hin & Hrest').
    exists v', key', dv'. split; [rewrite elem_of_cons; by right|done].
  - intros [= <- <-]. exists v, key, dv.
    split; [rewrite elem_of_cons; by left|done].
Qed.

(** X20. A call of the body raises only in two ways: the retrieval of the
    visas raised, and that exception is re-raised; or a visa of the
    passport passed validation, [sub] included, and its row could not be
    built from its claims. Nothing else a visa does makes the sync fail. *)
Theorem sync_raises_only_from_retrieval_or_row_building st e :
  (update_user_visas_once st).1 = Raise e →
  (∃ st1, retrieve_visas (cleared st) = (Raise e, st1))
  ∨ (∃ batch st1 v key decoded_visa,
       retrieve_visas (cleared st) = (Ok batch, st1)
       ∧ v ∈ batch
       ∧ validate_jwt v key GA4GH_VISA_ISSUER_ALLOWLIST = Ok decoded_visa
       ∧ dict_has decoded_visa "sub" = true
       ∧ visa_of_claims decoded_visa v = Raise e).
Proof.
  rewrite update_user_visas_once_unfold.
  destruct (retrieve_visas (cleared st)) as [[batch|e0] st1] eqn:Hret.
  - destruct (visa_loop batch st1) as [r st'] eqn:Hloop. cbn [fst].
    intros ->. right.
    destruct (visa_loop_raise _ _ _ _ Hloop)
      as (v & key & dv & Hin & Hv & Hrow).
    destruct (validate_visa_ok _ _ _ Hv) as [Hjwt Hsub].
    by exists batch, st1, v, key, dv.
  - intros [= <-]. left. by exists st1.
Qed.

(** X21. A row is built from validated claims exactly when they hold an
    object under [ga4gh_visa_v1] with [source], [type] and an [asserted]
    that [int] accepts, and an [exp] that [int] accepts; the row then
    carries those values and the encoded visa. *)
Theorem visa_row_fields decoded_visa encoded_visa row :
  visa_of_claims decoded_visa encoded_visa = Ok row
  ↔ ∃ members asserted_claim exp_claim,
      dict_get decoded_visa "ga4gh_visa_v1" = Some (JObj members)
      ∧ dict_get members "source" = Some (source row)
      ∧ dict_get members "type" = Some (type row)
      ∧ dict_get members "asserted" = Some asserted_claim
      ∧ py_int asserted_claim = Ok (asserted row)
      ∧ dict_get decoded_visa "exp" = Some exp_claim
      ∧ py_int exp_claim = Ok (expires row)
      ∧ ga4gh_visa row = encoded_visa.
Proof.
  unfold visa_of_claims, result_bind, dict_item, py_item. split.
  - destruct (dict_get decoded_visa "ga4gh_visa_v1") as [v1|]; [|done].
    destruct v1 as [| | | | |members]; try done. unfold dict_item.
    destruct (dict_get members "source") as [src|] eqn:Hsrc; [|done].
    destruct (dict_get members "type") as [typ|] eqn:Htyp; [|done].
    destruct (dict_get members "asserted") as [a|] eqn:Hasserted; [|done].
    destruct (py_int a) as [asserted_at|] eqn:Ha; [|done].
    destruct (dict_get decoded_visa "exp") as [x|]; [|done].
    destruct (py_int x) as [exp_at|] eqn:Hx; [|done].
    intros [= <-]. by exists members, a, x.
  - intros (members & a & x & -> & Hsrc & Htyp & Ha & Hai & -> & Hxi & Henc).
    unfold dict_item. rewrite Hsrc, Htyp, Ha, Hai, Hxi.
    destruct row. cbn in *. by subst.
Qed.

Lemma count_events_app kind evs1 evs2 :
  count_events kind (evs1 ++ evs2)
  = (count_events kind evs1 + count_events kind evs2)%nat.
Proof. unfold count_events. by rewrite List.filter_app, length_app. Qed.

Lemma count_events_none (kind kind' : event → bool) evs :
  (∀ ev, kind ev = true → kind' ev = false) →
  Forall (λ ev, kind ev = true) evs →
  count_events kind' evs = 0%nat.
Proof.
  intros Hsub. unfold count_events.
  induction 1 as [|ev evs Hev _ IH]; [done|].
  cbn. by rewrite (Hsub _ Hev).
Qed.

Lemma emits_only_resolve_public_key visa_issuer visa_kid :
  emits_only loop_event (resolve_public_key visa_issuer visa_kid).
Proof.
  intros st. unfold resolve_public_key. cbv zeta.
  destruct (negb (get_truthy _)).
  - refine (emits_only_try_except loop_event _ _ _ _ st); step_quiet.
  - exists []. cbn. by rewrite app_nil_r.
Qed.

Lemma emits_only_process_visa encoded_visa :
  emits_only loop_event (process_visa encoded_visa).
Proof.
  unfold process_visa. step_quiet.
  - apply emits_only_resolve_public_key.
  - unfold validate_and_persist, add_visa, db_commit. step_quiet.
Qed.

Lemma emits_only_visa_loop encoded_visas :
  emits_only loop_event (visa_loop encoded_visas).
Proof.
  induction encoded_visas as [|v rest IH]; cbn [visa_loop]; step_quiet.
  - apply emits_only_process_visa.
  - apply IH.
Qed.

(** One call of the body clears the collection once and never backs
    off. *)
Lemma update_user_visas_once_events st :
  ∃ evs,
    trace (update_user_visas_once st).2 = trace st ++ evs
    ∧ count_events is_clear evs = 1%nat
    ∧ count_events is_backoff evs = 0%nat.
Proof.
  assert (Hbody : emits_only (λ ev, call_or_log ev || loop_event ev)
                    retrieve_and_store).
  { unfold retrieve_and_store. step_quiet.
    - eapply emits_only_weaken; [|apply emits_only_retrieve_visas].
      intros ev ->. done.
    - eapply emits_only_weaken; [|apply emits_only_visa_loop].
      intros ev ->. apply orb_true_r. }
  change (update_user_visas_once st) with (retrieve_and_store (cleared st)).
  destruct (Hbody (cleared st)) as (evs & -> & Hk).
  exists ([EvSetVisas []; EvCommit] ++ evs). split.
  { unfold cleared, mbind, M_bind, bind.
    cbn [set_visas_empty db_commit on_session snd trace].
    by rewrite <- !app_assoc. }
  rewrite !count_events_app.
  rewrite (count_events_none (λ ev, call_or_log ev || loop_event ev)
             is_clear evs); [|by intros [| | | | |]|done].
  rewrite (count_events_none (λ ev, call_or_log ev || loop_event ev)
             is_backoff evs); [|by intros [| | | | |]|done].
  done.
Qed.

Lemma backoff_on_exception_tries {A} tries_left (m : M A) :
  (∀ st, ∃ evs, trace (m st).2 = trace st ++ evs
                ∧ count_events is_clear evs = 1%nat
                ∧ count_events is_backoff evs = 0%nat) →
  ∀ st, ∃ evs,
    trace (backoff_on_exception tries_left m st).2 = trace st ++ evs
    ∧ count_events is_clear evs = S (count_events is_backoff evs)
    ∧ (count_events is_backoff evs ≤ tries_left)%nat.
Proof.
  intros Hm. induction tries_left as [|n IH]; intros st;
    cbn [backoff_on_exception];
    destruct (Hm st) as (evs & Ht & Hc & Hb);
    destruct (m st) as [[a|e] st1]; cbn [snd] in Ht.
  - exists evs. rewrite Hc, Hb. split; [done|]. split; [done|lia].
  - assert (Hend : ∃ evs0,
               trace st1 = trace st ++ evs0
               ∧ count_events is_clear evs0 = S (count_events is_backoff evs0)
               ∧ (count_events is_backoff evs0 ≤ 0)%nat).
    { exists evs. rewrite Hc, Hb. split; [done|]. split; [done|lia]. }
    by destruct (giveup e).
  - exists evs. rewrite Hc, Hb. split; [done|]. split; [done|lia].
  - destruct (giveup e).
    { exists evs. rewrite Hc, Hb. split; [done|]. split; [done|lia]. }
    destruct (IH (with_trace st1 [EvBackoff])) as (evs2 & Ht2 & Hc2 & Hb2).
    exists (evs ++ [EvBackoff] ++ evs2). split.
    { rewrite Ht2. cbn. rewrite Ht. by rewrite <- !app_assoc. }
    rewrite !count_events_app, Hc, Hb, Hc2. cbn. split; lia.
Qed.

(** X22. The retry decorator is bounded: a sync calls its body at least
    once and, for a positive [max_tries], at most [max_tries] times. Every
    call of the body clears the user's visas exactly once and every retry
    is preceded by one back-off, so the clears recorded are one more than
    the back-offs, and the back-offs are at most [max_tries - 1]. *)
Theorem sync_tries_are_bounded st :
  ∃ evs,
    trace (update_user_visas st).2 = trace st ++ evs
    ∧ count_events is_clear evs = S (count_events is_backoff evs)
    ∧ (count_events is_backoff evs ≤ max_tries - 1)%nat.
Proof.
  apply backoff_on_exception_tries, update_user_visas_once_events.
Qed.

Lemma validate_and_persist_events encoded_visa key st :
  ∃ evs,
    trace (validate_and_persist encoded_visa key st).2 = trace st ++ evs
    ∧ key_fetches evs = [].
Proof.
  rewrite validate_and_persist_spec.
  destruct (validate_visa encoded_visa key) as [dv|e]; [|by eexists].
  destruct (visa_of_claims dv encoded_visa) as [row|e].
  - exists [EvAddVisa row; EvCommit]. cbn. by rewrite <- app_assoc.
  - exists []. cbn. by rewrite app_nil_r.
Qed.

(** The key-set fetches of one visa: none, or one for the issuer and key
    id read from the visa, and then only when the cache had no key. *)
Lemma process_visa_fetches encoded_visa st :
  ∃ evs,
    trace (process_visa encoded_visa st).2 = trace st ++ evs
    ∧ (key_fetches evs = []
       ∨ ∃ visa_issuer visa_kid,
           issuer_and_kid encoded_visa = Ok (visa_issuer, visa_kid)
           ∧ get_truthy (cache_lookup (pkey_cache st) visa_issuer visa_kid)
             = false
           ∧ key_fetches evs = [(visa_issuer, visa_kid)]).
Proof.
  destruct (issuer_and_kid encoded_visa) as [[visa_issuer visa_kid]|e]
    eqn:Hread.
  2: { rewrite (process_visa_malformed _ _ _ Hread). eexists. split; [done|].
       by left. }
  rewrite (process_visa_readable _ _ _ _ Hread).
  destruct (get_truthy (cache_lookup (pkey_cache st) visa_issuer visa_kid))
    eqn:Hc.
  - rewrite (resolve_public_key_hit _ _ _ Hc), Hc.
    destruct (cache_lookup _ _ _) as [key|]; [|done].
    destruct (validate_and_persist_events encoded_visa key st)
      as (evs & Ht & Hf).
    exists evs. split; [done|by left].
  - rewrite (resolve_public_key_miss _ _ _ Hc).
    destruct (refresh_cronjob_pkey_cache _ _ _ _) as [[[pk|e] cache] w].
    2: { eexists. split; [cbn; by rewrite <- app_assoc|].
         right. by exists visa_issuer, visa_kid. }
    destruct (get_truthy pk) eqn:Hpk.
    + destruct pk as [key|]; [|done].
      match goal with
      | |- context [validate_and_persist _ _ ?s] =>
          destruct (validate_and_persist_events encoded_visa key s)
            as (evs & Ht & Hf)
      end.
      exists ([EvCall (KeySetFetch visa_issuer visa_kid)] ++ evs). split.
      * rewrite Ht. cbn. by rewrite <- app_assoc.
      * right. exists visa_issuer, visa_kid. unfold key_fetches in *.
        cbn. by rewrite Hf.
    + eexists. split; [cbn; by rewrite <- app_assoc|].
      right. by exists visa_issuer, visa_kid.
Qed.

(** X23. The loop over a passport records nothing but key-set fetches,
    log records, added rows and commits, so it never clears the user's
    visas and never calls the provider; and it fetches a key set at most
    once per visa, each time for the issuer and key id read from a visa
    of the passport. *)
Theorem visa_loop_fetches_at_most_once_per_visa encoded_visas st :
  ∃ evs,
    trace (visa_loop encoded_visas st).2 = trace st ++ evs
    ∧ Forall (λ ev, loop_event ev = true) evs
    ∧ (length (key_fetches evs) ≤ length encoded_visas)%nat
    ∧ Forall (λ fetched, ∃ encoded_visa,
                encoded_visa ∈ encoded_visas
                ∧ issuer_and_kid encoded_visa = Ok fetched)
        (key_fetches evs).
Proof.
  destruct (emits_only_visa_loop encoded_visas st) as (evs & Ht & Hk).
  exists evs. split; [done|]. split; [done|].
  clear Hk. revert st evs Ht.
  induction encoded_visas as [|v rest IH]; intros st evs Ht.
  - cbn in Ht. rewrite <- (app_nil_r (trace st)) in Ht at 1.
    apply app_inv_head in Ht. by subst.
  - cbn [visa_loop] in Ht. unfold mbind, M_bind, bind in Ht.
    destruct (process_visa_fetches v st) as (evs1 & Ht1 & Hf1).
    assert (Hhere : (length (key_fetches evs1) ≤ 1)%nat
                    ∧ Forall (λ fetched, ∃ encoded_visa,
                                encoded_visa ∈ v :: rest
                                ∧ issuer_and_kid encoded_visa = Ok fetched)
                        (key_fetches evs1)).
    { destruct Hf1 as [->|(i & k & Hread & _ & ->)]; cbn; [split; [lia|done]|].
      split; [lia|]. apply Forall_singleton. exists v.
      split; [rewrite elem_of_cons; by left|done]. }
    destruct Hhere as [Hlen Hfrom].
    destruct (process_visa v st) as [[[]|e] st1]; cbn [snd] in Ht1.
    + destruct (emits_only_visa_loop rest st1) as (evs2 & Ht2 & _).
      destruct (IH st1 evs2 Ht2) as [Hlen2 Hfrom2].
      rewrite Ht2, Ht1, <- app_assoc in Ht. apply app_inv_head in Ht.
      subst evs. unfold key_fetches in *. rewrite omap_app, length_app.
      split; [cbn; lia|]. apply Forall_app. split; [done|].
      eapply Forall_impl; [exact Hfrom2|].
      intros fetched (v' & Hin & Hread). exists v'.
      split; [rewrite elem_of_cons; by right|done].
    + cbn [snd] in Ht. rewrite Ht1 in Ht. apply app_inv_head in Ht.
      subst evs. split; [cbn; lia|done].
Qed.

End RasOauth2More.

(** A token response that holds only an ID token. *)
Lemma get_userinfo_without_bearer_sends_nothing_witness :
  (@get_userinfo (sample_ras_env (scenario_visas [] true))
     [("id_token", JStr "idt-1")]
     (sample_state (scenario_visas [] true) ∅)).1
  = Raise (mkExn KeyError "access_token")
  ∧ trace (@get_userinfo (sample_ras_env (scenario_visas [] true))
             [("id_token", JStr "idt-1")]
             (sample_state (scenario_visas [] true) ∅)).2
    = [EvCall (DiscoveryDoc "issuer")].
Proof.
  destruct (@get_userinfo_without_bearer_sends_nothing
              (sample_ras_env (scenario_visas [] true))
              [("id_token", JStr "idt-1")]
              (sample_state (scenario_visas [] true) ∅))
    as (_ & Htrace & _ & Hmissing).
  - intros s. discriminate.
  - split; [|exact Htrace].
    apply (Hmissing eq_refl "https://stsstg.nih.gov/issuer" 0%nat).
    reflexivity.
Defined.

(** The user-info endpoint answers 503. *)
Lemma userinfo_error_status_gives_empty_dict_witness :
  (@get_userinfo (sample_ras_env_status (scenario_visas [] true) 503)
     [("access_token", JStr "at-1")]
     (sample_state_status (scenario_visas [] true) 503 ∅)).1
  = Ok (JObj [])
  ∧ trace (@get_userinfo (sample_ras_env_status (scenario_visas [] true) 503)
             [("access_token", JStr "at-1")]
             (sample_state_status (scenario_visas [] true) 503 ∅)).2
    = [ EvCall (DiscoveryDoc "issuer");
        EvCall (UserInfoEndpoint
                  "https://stsstg.nih.gov/issuer/openid/connect/v1.1/userinfo");
        EvLog (LogError "Unable to get visa") ].
Proof.
  edestruct (@userinfo_error_status_gives_empty_dict
               (sample_ras_env_status (scenario_visas [] true) 503)
               [("access_token", JStr "at-1")]
               (sample_state_status (scenario_visas [] true) 503 ∅))
    as (Hresult & _ & _ & Htrace).
  - reflexivity.
  - reflexivity.
  - reflexivity.
  - discriminate.
  - split; [exact Hresult|exact Htrace].
Defined.

Lemma userinfo_error_status_empties_visas_silently_witness :
  ∃ st',
    @update_user_visas (sample_ras_env_status (scenario_visas [] true) 503)
      (sample_state_status (scenario_visas [] true) 503 ∅)
    = (Ok tt, st')
    ∧ @update_user_visas_once
        (sample_ras_env_status (scenario_visas [] true) 503)
        (sample_state_status (scenario_visas [] true) 503 ∅)
      = (Ok tt, st')
    ∧ ga4gh_visas_v1 (user (session st')) = []
    ∧ committed_visas (session st') = [].
Proof.
  eapply (@userinfo_error_status_empties_visas_silently
            (sample_ras_env_status (scenario_visas [] true) 503)
            (sample_state_status (scenario_visas [] true) 503 ∅)).
  - reflexivity.
  - reflexivity.
  - reflexivity.
  - reflexivity.
  - reflexivity.
  - discriminate.
  - reflexivity.
Defined.

(** A passport of two visas of which the second is stored. *)
Lemma stored_visas_are_a_subsequence_of_the_passport_witness :
  (ga4gh_visa <$>
     ga4gh_visas_v1
       (user (session
          (@update_user_visas_once
             (sample_ras_env (scenario_visas ["not-a-jwt"; "visa.good"] true))
             (sample_state (scenario_visas ["not-a-jwt"; "visa.good"] true)
                ∅)).2)))
  `sublist_of` ["not-a-jwt"; "visa.good"]
  ∧ (length
       (ga4gh_visas_v1
          (user (session
             (@update_user_visas_once
                (sample_ras_env
                   (scenario_visas ["not-a-jwt"; "visa.good"] true))
                (sample_state (scenario_visas ["not-a-jwt"; "visa.good"] true)
                   ∅)).2)))
     ≤ length ["not-a-jwt"; "visa.good"])%nat.
Proof.
  eapply (@stored_visas_are_a_subsequence_of_the_passport
            (sample_ras_env (scenario_visas ["not-a-jwt"; "visa.good"] true))
            (sample_state (scenario_visas ["not-a-jwt"; "visa.good"] true) ∅)
            ["not-a-jwt"; "visa.good"]).
  reflexivity.
Defined.

(** A passport of three visas, none of which passes validation. *)
Lemma sync_with_only_rejected_visas_returns_empty_witness :
  ∃ st',
    @update_user_visas
      (sample_ras_env
         (scenario_visas ["visa.nosub"; "not-a-jwt"; "visa.forged"] true))
      (sample_state
         (scenario_visas ["visa.nosub"; "not-a-jwt"; "visa.forged"] true) ∅)
    = (Ok tt, st')
    ∧ @update_user_visas_once
        (sample_ras_env
           (scenario_visas ["visa.nosub"; "not-a-jwt"; "visa.forged"] true))
        (sample_state
           (scenario_visas ["visa.nosub"; "not-a-jwt"; "visa.forged"] true) ∅)
      = (Ok tt, st')
    ∧ ga4gh_visas_v1 (user (session st')) = []
    ∧ committed_visas (session st') = [].
Proof.
  eapply (@sync_with_only_rejected_visas_returns_empty
            (sample_ras_env
               (scenario_visas ["visa.nosub"; "not-a-jwt"; "visa.forged"]
                  true))
            (sample_state
               (scenario_visas ["visa.nosub"; "not-a-jwt"; "visa.forged"]
                  true) ∅)
            ["visa.nosub"; "not-a-jwt"; "visa.forged"]).
  - reflexivity.
  - intros v key Hin. rewrite !elem_of_cons, elem_of_nil in Hin.
    destruct Hin as [->|[->|[->|[]]]]; eexists; vm_compute; reflexivity.
Defined.

(** A passport whose second visa validates and carries no
    [ga4gh_visa_v1] claim. *)
Lemma sync_raises_only_from_retrieval_or_row_building_witness :
  (∃ st1,
     @retrieve_visas
       (sample_ras_env_status
          (scenario_visas ["visa.good"; "visa.bare"] true) 200)
       (cleared
          (sample_state_status
             (scenario_visas ["visa.good"; "visa.bare"] true) 200 ∅))
     = (Raise (mkExn KeyError "ga4gh_visa_v1"), st1))
  ∨ (∃ batch st1 v key decoded_visa,
       @retrieve_visas
         (sample_ras_env_status
            (scenario_visas ["visa.good"; "visa.bare"] true) 200)
         (cleared
            (sample_state_status
               (scenario_visas ["visa.good"; "visa.bare"] true) 200 ∅))
       = (Ok batch, st1)
       ∧ v ∈ batch
       ∧ @validate_jwt
           (sample_ras_env_status
              (scenario_visas ["visa.good"; "visa.bare"] true) 200)
           v key [sample_issuer]
         = Ok decoded_visa
       ∧ dict_has decoded_visa "sub" = true
       ∧ @visa_of_claims
           (sample_ras_env_status
              (scenario_visas ["visa.good"; "visa.bare"] true) 200)
           decoded_visa v
         = Raise (mkExn KeyError "ga4gh_visa_v1")).
Proof.
  eapply (@sync_raises_only_from_retrieval_or_row_building
            (sample_ras_env_status
               (scenario_visas ["visa.good"; "visa.bare"] true) 200)
            (sample_state_status
               (scenario_visas ["visa.good"; "visa.bare"] true) 200 ∅)).
  vm_compute. reflexivity.
Defined.
